(** * Game pages, chat list and chat service of the FakeStackOverflow client
      and server: a shallow embedding and its verified properties.

    The client-side hooks and components ([NimGamePage], [useNimGamePage],
    [useGamePage], [useDirectMessage]) and the server-side chat service
    ([getChatsByParticipants]) are embedded from their TypeScript sources.
    React state is threaded explicitly: a handler is a function from the
    state of the render it was created in to the state of the next render,
    and socket emissions, HTTP requests and navigation are collected as a
    list of effects.  JavaScript numbers that the code only ever compares
    with small integer literals are integers ([Z]). *)

From stdpp Require Import base numbers strings list option gmap.
From Stdlib Require Import ZArith Lia.

Local Open Scope Z_scope.

(** ** Shared data types (client [types.ts]) *)

(** Modelled from the spec: the declaration of the game status type is not
    among the sources; the three states are those of the specification's
    data model, and the sources compare against ['OVER'] and
    ['IN_PROGRESS'] only. *)
Inductive GameStatus := WAITING | IN_PROGRESS | OVER.

Global Instance GameStatus_eq_dec : EqDecision GameStatus.
Proof. solve_decision. Defined.

Module NimMove.
Record t := mk { numObjects : Z }.
End NimMove.

(** Modelled from the spec: an entry of [state.moves] is a pair
    [{playerID, numObjects}]; the client only reads the length of the
    sequence. *)
Module MoveEntry.
Record t := mk { playerID : string; numObjects : Z }.
End MoveEntry.

(** [player1], [player2], [moves] and [winners] are read through guards
    ([||], [&&]) in the component, so they may be absent. *)
Module NimGameState.
Record t := mk {
  player1 : option string;
  player2 : option string;
  remainingObjects : Z;
  moves : option (list MoveEntry.t);
  winners : option (list string);
  status : GameStatus;
}.
End NimGameState.

Module GameInstance.
Record t := mk {
  gameID : string;
  gameType : string;
  state : NimGameState.t;
}.
End GameInstance.

Module User.
Record t := mk { _id : option string; username : string }.
End User.

(** [a || d] on an optional string: [undefined] and the empty string are
    falsy. *)
Definition or_default (a : option string) (d : string) : string :=
  match a with
  | Some s => if bool_decide (s = EmptyString) then d else s
  | None => d
  end.

(** ** The component [NimGamePage] *)

Module NimGamePage.
Import NimGameState GameInstance.

(** Helper function to determine current player's turn. *)
Definition getCurrentPlayer (gameState : GameInstance.t) : option string :=
  let st := state gameState in
  match moves st with
  | Some ms =>
      if (0 <? length ms)%nat then
        let isEvenMove := (length ms mod 2 =? 0)%nat in
        if isEvenMove then player1 st else player2 st
      else player1 st
  | None => player1 st
  end.

Definition isUserTurn (gameState : GameInstance.t) (user : User.t) : bool :=
  bool_decide (getCurrentPlayer gameState = Some (User.username user)).

(** The move form: the number input and the submit button. *)
Record MoveForm := mkForm { value : Z; disabled : bool }.

(** What the component puts on the page; a conditional block that is not
    rendered is [None]. *)
Record View := mkView {
  player1Text : string;
  player2Text : string;
  currentPlayerText : string;
  remainingObjectsText : Z;
  winnerText : option string;
  moveForm : option MoveForm;
}.

Definition render (gameState : GameInstance.t) (user : User.t) (move : Z) : View :=
  let st := state gameState in
  {| player1Text := or_default (player1 st) "Waiting...";
     player2Text := or_default (player2 st) "Waiting...";
     currentPlayerText :=
       or_default (getCurrentPlayer gameState) "Waiting for players...";
     remainingObjectsText := remainingObjects st;
     winnerText :=
       if bool_decide (status st = OVER) then
         Some match winners st with
              | Some (w :: _) => w
              | _ => "No winner"%string
              end
       else None;
     moveForm :=
       if bool_decide (status st = IN_PROGRESS) then
         Some {| value := move; disabled := negb (isUserTurn gameState user) |}
       else None |}.
End NimGamePage.

(** ** The hook [useNimGamePage] *)

Module GameMove.
Record t := mk { playerID : string; gameID : string; move : NimMove.t }.
End GameMove.

Module GameMovePayload.
Record t := mk { gameID : string; move : GameMove.t }.
End GameMovePayload.

Module useNimGamePage.

(** A JavaScript string is a sequence of UTF-16 code units. *)
Definition jsstring := list N.

Definition code_units (s : string) : jsstring :=
  (λ a, Ascii.N_of_ascii a) <$> String.list_ascii_of_string s.

(** White space and line terminators skipped by [parseInt]. *)
Definition isStrWhiteSpaceChar (c : N) : bool :=
  ((c =? 0x09) || (c =? 0x0A) || (c =? 0x0B) || (c =? 0x0C) || (c =? 0x0D)
   || (c =? 0x20) || (c =? 0xA0) || (c =? 0x1680)
   || ((0x2000 <=? c) && (c <=? 0x200A))
   || (c =? 0x2028) || (c =? 0x2029) || (c =? 0x202F) || (c =? 0x205F)
   || (c =? 0x3000) || (c =? 0xFEFF))%N.

Fixpoint trimStart (s : jsstring) : jsstring :=
  match s with
  | c :: r => if isStrWhiteSpaceChar c then trimStart r else s
  | [] => []
  end.

Definition digitValue (c : N) : option Z :=
  if ((0x30 <=? c) && (c <=? 0x39))%N then Some (Z.of_N c - 0x30) else None.

(** The longest prefix of decimal digits. *)
Fixpoint takeDigits (s : jsstring) : list Z :=
  match s with
  | c :: r => match digitValue c with
              | Some d => d :: takeDigits r
              | None => []
              end
  | [] => []
  end.

Definition mathInt (ds : list Z) : Z := fold_left (λ acc d, 10 * acc + d) ds 0.

(** [parseInt(value, 10)]; [None] is [NaN].  The result is the exact
    integer: the Number that JavaScript returns is that integer rounded,
    and rounding is monotone and fixes 1 and 3, so the comparisons below
    agree; [-0] is [0]. *)
Definition parseInt (value : jsstring) : option Z :=
  let s := trimStart value in
  let '(sign, s) :=
    match s with
    | c :: r => if (c =? 0x2D)%N then (-1, r)
                else if (c =? 0x2B)%N then (1, r) else (1, s)
    | [] => (1, s)
    end in
  match takeDigits s with
  | [] => None
  | ds => Some (sign * mathInt ds)
  end.

(** [useState<number>(1)] *)
Definition initialMove : Z := 1.

(** The payload that [handleMakeMove] passes to
    [socket.emit('makeMove', _)]. *)
Definition handleMakeMove (gameState : GameInstance.t) (user : User.t) (move : Z)
  : GameMovePayload.t :=
  {| GameMovePayload.gameID := GameInstance.gameID gameState;
     GameMovePayload.move :=
       {| GameMove.playerID := User.username user;
          GameMove.gameID := GameInstance.gameID gameState;
          GameMove.move := {| NimMove.numObjects := move |} |} |}.

(** The next value of the [move] state after a change event whose target
    holds [value]. *)
Definition handleInputChange (value : jsstring) (move : Z) : Z :=
  match parseInt value with
  | Some numValue =>
      if (1 <=? numValue) && (numValue <=? 3) then numValue else move
  | None => move
  end.

(** What the user does with the page: typing into the input, or pressing
    the submit button of a render with the given props. *)
Inductive Event :=
| InputChange (value : jsstring)
| SubmitClick (gameState : GameInstance.t) (user : User.t).

(** The ['makeMove'] payloads emitted over a sequence of events. *)
Fixpoint emitted (events : list Event) (move : Z) : list GameMovePayload.t :=
  match events with
  | [] => []
  | InputChange value :: rest => emitted rest (handleInputChange value move)
  | SubmitClick gameState user :: rest =>
      handleMakeMove gameState user move :: emitted rest move
  end.

Definition payloadObjects (p : GameMovePayload.t) : Z :=
  NimMove.numObjects (GameMove.move (GameMovePayload.move p)).
End useNimGamePage.

(** ** The hook [useGamePage] *)

Module GameUpdatePayload.
Record t := mk { gameState : GameInstance.t }.
End GameUpdatePayload.

Module GameErrorPayload.
Record t := mk { player : string; error : string }.
End GameErrorPayload.

Module useGamePage.

(** The three [useState] cells of the hook. *)
Record State := mkState {
  gameState : option GameInstance.t;
  joinedGameID : option string;
  error : option string;
}.

Definition initialState : State :=
  {| gameState := None; joinedGameID := None; error := None |}.

Definition setGameState (g : option GameInstance.t) (s : State) : State :=
  {| gameState := g; joinedGameID := joinedGameID s; error := error s |}.
Definition setJoinedGameID (i : option string) (s : State) : State :=
  {| gameState := gameState s; joinedGameID := i; error := error s |}.
Definition setError (e : option string) (s : State) : State :=
  {| gameState := gameState s; joinedGameID := joinedGameID s; error := e |}.

(** What a handler does to the outside world, in order. *)
Inductive Effect :=
| LeaveGameRequest (gameID username : string)
| JoinGameRequest (gameID username : string)
| SocketEmit (event gameID : string)
| ConsoleError (message : string)
| Navigate (path : string).

(** A string in a condition: [null] and the empty string are falsy. *)
Definition truthy_id (i : option string) : option string :=
  match i with
  | Some s => if bool_decide (s = EmptyString) then None else Some s
  | None => None
  end.

(** [handleLeaveGame]; [leaveGame] tells whether the request of the games
    service resolves ([true]) or throws ([false]). *)
Definition handleLeaveGame (user : User.t) (leaveGame : string → string → bool)
    (s : State) : list Effect :=
  match truthy_id (joinedGameID s), gameState s with
  | Some joined, Some g =>
      if bool_decide (NimGameState.status (GameInstance.state g) ≠ OVER) then
        LeaveGameRequest joined (User.username user)
        :: (if leaveGame joined (User.username user)
            then [SocketEmit "leaveGame" joined]
            else [ConsoleError "Error leaving game:"])
      else []
  | _, _ => []
  end ++ [Navigate "/games"].

(** [handleJoinGame(id)]; [joinGame] is the outcome of the request, [None]
    when it throws. *)
Definition handleJoinGame (user : User.t) (id : string)
    (joinGame : option GameInstance.t) (s : State) : State * list Effect :=
  match joinGame with
  | Some game =>
      (setError None (setJoinedGameID (Some id) (setGameState (Some game) s)),
       [JoinGameRequest id (User.username user); SocketEmit "joinGame" id])
  | None =>
      (setError (Some "Failed to join game"%string) s,
       [JoinGameRequest id (User.username user); ConsoleError "Error joining game:"])
  end.

(** The start of the effect: [if (gameID) handleJoinGame(gameID)]. *)
Definition joinOnMount (user : User.t) (gameID : option string)
    (joinGame : option GameInstance.t) (s : State) : State * list Effect :=
  match truthy_id gameID with
  | Some id => handleJoinGame user id joinGame s
  | None => (s, [])
  end.

Definition handleGameUpdate (updatedState : GameUpdatePayload.t) (s : State) : State :=
  setError None (setGameState (Some (GameUpdatePayload.gameState updatedState)) s).

Definition handleGameError (user : User.t) (gameError : GameErrorPayload.t)
    (s : State) : State :=
  if bool_decide (GameErrorPayload.player gameError = User.username user)
  then setError (Some (GameErrorPayload.error gameError)) s
  else s.

(** What can happen to a mounted hook. *)
Inductive Event :=
| EffectRun (gameID : option string) (joinGame : option GameInstance.t)
| GameUpdate (updatedState : GameUpdatePayload.t)
| GameError (gameError : GameErrorPayload.t).

Definition step (user : User.t) (s : State) (e : Event) : State :=
  match e with
  | EffectRun gameID joinGame => fst (joinOnMount user gameID joinGame s)
  | GameUpdate p => handleGameUpdate p s
  | GameError p => handleGameError user p s
  end.

Definition run (user : User.t) (events : list Event) : State :=
  fold_left (step user) events initialState.

(** Once a game is joined its identifier is a non-empty string and a
    game state is held. *)
Definition joined_ok (s : State) : Prop :=
  ∀ id, joinedGameID s = Some id → id ≠ EmptyString ∧ is_Some (gameState s).
End useGamePage.

(** ** The hook [useDirectMessage] *)

Module Message.
Record t := mk { msg : string; msgFrom : string; msgDateTime : Z }.
End Message.

(** The fields of a chat that the sources read: [_id] may be absent. *)
Module Chat.
Record t := mk {
  _id : option string;
  participants : list string;
  messages : list Message.t;
}.
End Chat.

Module ChatUpdatePayload.
Record t := mk { chat : Chat.t; type : string }.
End ChatUpdatePayload.

Module useDirectMessage.

Record State := mkState {
  selectedChat : option Chat.t;
  chats : list Chat.t;
}.

(** [existingChat._id === chat._id] *)
Definition same_id (a b : Chat.t) : bool := bool_decide (Chat._id a = Chat._id b).

(** The updater passed to [setChats] in the ['created'] case. *)
Definition addCreated (chat : Chat.t) (prevChats : list Chat.t) : list Chat.t :=
  let chatExists := existsb (λ existingChat, same_id existingChat chat) prevChats in
  if negb chatExists then prevChats ++ [chat] else prevChats.

(** The updater passed to [setChats] in the ['newMessage'] case. *)
Definition replaceChat (chat : Chat.t) (prevChats : list Chat.t) : list Chat.t :=
  (λ existingChat, if same_id existingChat chat then chat else existingChat) <$> prevChats.

(** [handleChatUpdate]; [None] is the thrown [Error] of the default case. *)
Definition handleChatUpdate (chatUpdate : ChatUpdatePayload.t) (s : State) : option State :=
  let chat := ChatUpdatePayload.chat chatUpdate in
  let type := ChatUpdatePayload.type chatUpdate in
  if bool_decide (type = "created") then
    Some {| selectedChat := selectedChat s; chats := addCreated chat (chats s) |}
  else if bool_decide (type = "newMessage") then
    Some {| selectedChat :=
              match selectedChat s with
              | Some sel => if same_id sel chat then Some chat else Some sel
              | None => None
              end;
            chats := replaceChat chat (chats s) |}
  else None.
End useDirectMessage.

(** ** The chat service: [getChatsByParticipants] *)

(** JavaScript values as far as the service tells them apart. *)
#[warnings="-register-all"]
Inductive jsval :=
| JUndefined
| JNull
| JBool (b : bool)
| JNum (n : Z)
| JStr (s : string)
| JError (message : string)
| JObject (doc : Chat.t)
| JArray (items : list jsval).

Definition truthy (v : jsval) : bool :=
  match v with
  | JUndefined | JNull => false
  | JBool b => b
  | JNum n => negb (n =? 0)
  | JStr s => negb (bool_decide (s = EmptyString))
  | JError _ | JObject _ | JArray _ => true
  end.

(** [Array.isArray] *)
Definition isArray (v : jsval) : bool :=
  match v with JArray _ => true | _ => false end.

(** [instanceof Error] *)
Definition isError (v : jsval) : bool :=
  match v with JError _ => true | _ => false end.

(** How the evaluation of a block ends. *)
Inductive Completion :=
| Returns (v : jsval)
| Throws (reason : jsval).

(** The query threw, or returned something that is not an array. *)
Definition failed_or_not_array (c : Completion) : Prop :=
  (∃ reason, c = Throws reason) ∨ (∃ v, c = Returns v ∧ isArray v = false).

(** How the promise of an [async] function settles. *)
Inductive Settled :=
| Resolves (v : jsval)
| Rejects (reason : jsval).

Definition await (c : Completion) (k : jsval → Completion) : Completion :=
  match c with
  | Returns v => k v
  | Throws r => Throws r
  end.

(** [try { body } catch { handler }] *)
Definition try_catch (body handler : Completion) : Completion :=
  match body with
  | Returns v => Returns v
  | Throws _ => handler
  end.

Definition async (c : Completion) : Settled :=
  match c with
  | Returns v => Resolves v
  | Throws r => Rejects r
  end.

(** The version of the service that populates the messages of the chats.
    [find p] is the outcome of awaiting the whole query
    [ChatModel.find({participants: {$all: p}}).populate(..).lean()]. *)
Module ChatServicePopulate.
Definition getChatsByParticipants (find : list string → Completion)
    (p : list string) : Settled :=
  async (try_catch
           (await (find p) (λ chats,
              Returns (if isArray chats then chats else JArray [])))
           (Returns (JArray []))).
End ChatServicePopulate.

(** The version of the service that first looks into the registry of
    [mockingoose]. *)
Module ChatService.
(** The mocks registered for one model: the entry of the [find]
    operation, [JUndefined] when there is none. *)
Record ModelMocks := mkMocks { find : jsval }.

Record Mockingoose := mkMockingoose { __mocks : option (gmap string ModelMocks) }.

Record Env := mkEnv {
  (** [require('mockingoose')], [None] when it throws *)
  require_mockingoose : option Mockingoose;
  (** [ChatModel.modelName] *)
  modelName : string;
  (** awaiting [ChatModel.find({participants: {$all: p}}).lean()] *)
  ChatModel_find : list string → Completion;
}.

(** [getMockingoose]: the module, or [null]. *)
Definition getMockingoose (env : Env) : option Mockingoose := require_mockingoose env.

(** [mockingoose?.__mocks?.[ChatModel.modelName]?.find] *)
Definition mockFind (env : Env) : jsval :=
  match getMockingoose env with
  | Some mockingoose =>
      match __mocks mockingoose with
      | Some mocks =>
          match mocks !! modelName env with
          | Some m => find m
          | None => JUndefined
          end
      | None => JUndefined
      end
  | None => JUndefined
  end.

Definition getChatsByParticipants (env : Env) (p : list string) : Settled :=
  async (try_catch
           (let mockFind := mockFind env in
            if truthy mockFind then
              if isError mockFind then Returns (JArray [])
              else Returns (if isArray mockFind then mockFind else JArray [mockFind])
            else
              await (ChatModel_find env p) (λ chats,
                Returns (if isArray chats then chats else JArray [])))
           (Returns (JArray []))).
End ChatService.

(** ** The game session engine *)

(** Modelled from the spec: the server's game engine (the move validator of
    the subtraction game, the game state machine, the join/leave
    coordinator and the session registry) is not among the sources, which
    hold the client and the chat service only.  The definitions of this
    module follow sections 3, 4 and 6 of the specification.  Where the
    specification gives no order between the rejection kinds, the status is
    checked first, then the turn, then the legality of the payload. *)
Module GameEngine.
Import NimGameState.

Inductive Rejection := NotYourTurn | GameNotInProgress | IllegalMove.
Inductive JoinError := GameFull.

Definition numSeats : nat := 2.

(** Modelled from the spec: the seat order, seat 1 first (the engine's
    seats are not among the sources). *)
Definition seat (st : NimGameState.t) (i : nat) : option string :=
  match i with
  | O => player1 st
  | S O => player2 st
  | _ => None
  end.

Definition movesOf (st : NimGameState.t) : list MoveEntry.t := default [] (moves st).

(** Modelled from the spec: computed turn = [moves.length % numSeats]
    (the validator is not among the sources). *)
Definition turn (st : NimGameState.t) : nat := (length (movesOf st) mod numSeats)%nat.

Definition seated (st : NimGameState.t) (playerID : string) : bool :=
  bool_decide (player1 st = Some playerID) || bool_decide (player2 st = Some playerID).

(** The seated player other than [playerID]. *)
Definition otherPlayer (st : NimGameState.t) (playerID : string) : option string :=
  if bool_decide (player1 st = Some playerID) then player2 st else player1 st.

(** Modelled from the spec: the allowed range of the subtraction game,
    [numObjects ∈ {1,2,3}] and [numObjects <= remainingObjects] (the
    validator is not among the sources). *)
Definition legal (st : NimGameState.t) (n : Z) : bool :=
  (1 <=? n) && (n <=? 3) && (n <=? remainingObjects st).

(** Modelled from the spec: the effect of a valid move (the validator is
    not among the sources): append it, decrement the pile, and end the
    game against the mover when the pile is empty. *)
Definition commit (st : NimGameState.t) (playerID : string) (n : Z) : NimGameState.t :=
  let remaining := remainingObjects st - n in
  {| player1 := player1 st;
     player2 := player2 st;
     remainingObjects := remaining;
     moves := Some (movesOf st ++ [MoveEntry.mk playerID n]);
     winners := if remaining =? 0
                then Some (option_list (otherPlayer st playerID))
                else winners st;
     status := if remaining =? 0 then OVER else status st |}.

(** Modelled from the spec: [validate(state, playerID, move) → newState |
    Rejection], the move validator, which is not among the sources. *)
Definition validate (st : NimGameState.t) (playerID : string) (move : NimMove.t)
  : NimGameState.t + Rejection :=
  if negb (bool_decide (status st = IN_PROGRESS)) then inr GameNotInProgress
  else if negb (bool_decide (seat st (turn st) = Some playerID)) then inr NotYourTurn
  else if negb (legal st (NimMove.numObjects move)) then inr IllegalMove
  else inl (commit st playerID (NimMove.numObjects move)).

(** Modelled from the spec: the variant-initial state of [createGame],
    which is not among the sources: empty seats and the starting pile. *)
Definition initialState (pile : Z) : NimGameState.t :=
  {| player1 := None; player2 := None; remainingObjects := pile;
     moves := Some []; winners := Some []; status := WAITING |}.

Definition setSeats (p1 p2 : option string) (st : NimGameState.t) : NimGameState.t :=
  {| player1 := p1; player2 := p2;
     remainingObjects := remainingObjects st; moves := moves st;
     winners := winners st;
     status := match p1, p2 with
               | Some _, Some _ => IN_PROGRESS
               | _, _ => status st
               end |}.

(** Modelled from the spec: [join] of the join/leave coordinator, which is
    not among the sources: idempotent for a seated player; a seat is
    assigned while WAITING and vacant, and filling the second seat starts
    the game. *)
Definition join (st : NimGameState.t) (playerID : string)
  : NimGameState.t + JoinError :=
  if seated st playerID then inl st
  else if bool_decide (status st = WAITING) then
    match player1 st, player2 st with
    | None, p2 => inl (setSeats (Some playerID) p2 st)
    | Some p1, None => inl (setSeats (Some p1) (Some playerID) st)
    | Some _, Some _ => inr GameFull
    end
  else inr GameFull.

(** Modelled from the spec: [leave] of the join/leave coordinator, which is
    not among the sources: it vacates the seat while WAITING, forfeits
    while IN_PROGRESS, and does nothing once the game is OVER.  The specification says
    nothing of a leave by a player who has no seat: it changes nothing. *)
Definition leave (st : NimGameState.t) (playerID : string) : NimGameState.t :=
  match status st with
  | WAITING =>
      {| player1 := if bool_decide (player1 st = Some playerID) then None else player1 st;
         player2 := if bool_decide (player2 st = Some playerID) then None else player2 st;
         remainingObjects := remainingObjects st; moves := moves st;
         winners := winners st; status := WAITING |}
  | IN_PROGRESS =>
      if seated st playerID then
        {| player1 := player1 st; player2 := player2 st;
           remainingObjects := remainingObjects st; moves := moves st;
           winners := Some (option_list (otherPlayer st playerID));
           status := OVER |}
      else st
  | OVER => st
  end.

(** The requests a session receives. *)
Inductive Action :=
| Join (playerID : string)
| Leave (playerID : string)
| Move (playerID : string) (move : NimMove.t).

(** One request against one game; a rejected request leaves the state as
    it is. *)
Definition act (st : NimGameState.t) (a : Action) : NimGameState.t :=
  match a with
  | Join p => match join st p with inl st' => st' | inr _ => st end
  | Leave p => leave st p
  | Move p m => match validate st p m with inl st' => st' | inr _ => st end
  end.

Definition play (pile : Z) (actions : list Action) : NimGameState.t :=
  fold_left act actions (initialState pile).

(** The invariants of the data model, with those the coordinator keeps:
    the second seat is filled exactly when the game has started. *)
Record invariant (st : NimGameState.t) : Prop := mkInvariant {
  inv_nonneg : 0 <= remainingObjects st;
  inv_seats_filled :
    status st ≠ WAITING → is_Some (player1 st) ∧ is_Some (player2 st);
  inv_waiting : status st = WAITING → player2 st = None;
  inv_distinct : ∀ p, player1 st = Some p → player2 st ≠ Some p;
  inv_moves : is_Some (moves st);
  inv_winners : status st = OVER → ∃ w, winners st = Some [w];
}.

(** *** The session registry *)

Definition withState (g : GameInstance.t) (st : NimGameState.t) : GameInstance.t :=
  {| GameInstance.gameID := GameInstance.gameID g;
     GameInstance.gameType := GameInstance.gameType g;
     GameInstance.state := st |}.

(** What the engine hands to the broadcast dispatcher, or back to the
    caller. *)
Inductive Outcome :=
| publishStateUpdate (gameID : string) (snapshot : GameInstance.t)
| publishPlayerError (gameID playerID : string) (kind : Rejection)
| NotFound.

(** Modelled from the spec: [applyMove(gameID, playerID, move)] of the game
    state machine, which is not among the sources: look the instance up,
    validate, commit and broadcast on success, report to the player on
    rejection. *)
Definition applyMove (registry : gmap string GameInstance.t)
    (gameID playerID : string) (move : NimMove.t)
  : gmap string GameInstance.t * Outcome :=
  match registry !! gameID with
  | None => (registry, NotFound)
  | Some g =>
      match validate (GameInstance.state g) playerID move with
      | inl st' =>
          let g' := withState g st' in
          (<[gameID := g']> registry, publishStateUpdate gameID g')
      | inr kind => (registry, publishPlayerError gameID playerID kind)
      end
  end.

(** The message of a rejection, and the payload the acting player's
    client receives for it. *)
Definition message (kind : Rejection) : string :=
  match kind with
  | NotYourTurn => "NotYourTurn"
  | GameNotInProgress => "GameNotInProgress"
  | IllegalMove => "IllegalMove"
  end.

Definition gameErrorPayload (playerID : string) (kind : Rejection) : GameErrorPayload.t :=
  {| GameErrorPayload.player := playerID; GameErrorPayload.error := message kind |}.
End GameEngine.

(** ** A game of the subtraction variant, played from a pile of seven *)

Module Scenario.
Import GameEngine.

Definition take (playerID : string) (n : Z) : Action := Move playerID (NimMove.mk n).

(** Both players have joined. *)
Definition started : NimGameState.t := play 7 [Join "p1"; Join "p2"].

(** Pile of three, [p1] to move. *)
Definition midgame : NimGameState.t :=
  play 7 [Join "p1"; Join "p2"; take "p1" 3; take "p2" 1].

(** [p1] has taken the last three objects. *)
Definition finished : NimGameState.t :=
  play 7 [Join "p1"; Join "p2"; take "p1" 3; take "p2" 1; take "p1" 3].

Definition instance (st : NimGameState.t) : GameInstance.t :=
  {| GameInstance.gameID := "g1"; GameInstance.gameType := "Nim";
     GameInstance.state := st |}.

Definition p1 : User.t := {| User._id := Some "u1"; User.username := "p1" |}.
Definition p2 : User.t := {| User._id := Some "u2"; User.username := "p2" |}.

(** A chat between the two, and the update that announces it. *)
Definition chat : Chat.t :=
  {| Chat._id := Some "c1"; Chat.participants := ["p1"; "p2"]; Chat.messages := [] |}.

Definition created : ChatUpdatePayload.t :=
  {| ChatUpdatePayload.chat := chat; ChatUpdatePayload.type := "created" |}.

Definition noChats : useDirectMessage.State :=
  {| useDirectMessage.selectedChat := None; useDirectMessage.chats := [] |}.

(** A server without [mockingoose], whose query fails. *)
Definition failingServer : ChatService.Env :=
  {| ChatService.require_mockingoose := None;
     ChatService.modelName := "Chat";
     ChatService.ChatModel_find := λ _, Throws (JError "connection lost") |}.

(** A test run in which a single document is registered for [find]. *)
Definition mockedServer : ChatService.Env :=
  {| ChatService.require_mockingoose :=
       Some {| ChatService.__mocks :=
                 Some {[ "Chat"%string := {| ChatService.find := JObject chat |} ]} |};
     ChatService.modelName := "Chat";
     ChatService.ChatModel_find := λ _, Returns (JArray []) |}.
End Scenario.

(** ** Text of input fields *)

Module JsString.

(** [s.trimEnd()] *)
Definition trimEnd (s : list N) : list N := rev (useNimGamePage.trimStart (rev s)).

(** [s.trim()]: white space and line terminators go from both ends. *)
Definition trim (s : list N) : list N := trimEnd (useNimGamePage.trimStart s).

(** A string in a condition: the empty string is falsy. *)
Definition truthy (s : list N) : bool :=
  match s with
  | [] => false
  | _ :: _ => true
  end.
End JsString.

(** ** The hook [useAuth] and the pages [Login] and [Signup] *)

Module UserCredentials.
Record t := mk { username : list N; password : list N }.
End UserCredentials.

Module useAuth.

Inductive AuthType := login | signup.

Global Instance AuthType_eq_dec : EqDecision AuthType.
Proof. solve_decision. Defined.

(** The five [useState] cells of the hook. *)
Record State := mkState {
  username : list N;
  password : list N;
  passwordConfirmation : list N;
  showPassword : bool;
  err : string;
}.

Definition initialState : State :=
  {| username := []; password := []; passwordConfirmation := [];
     showPassword := false; err := EmptyString |}.

Definition setErr (e : string) (s : State) : State :=
  {| username := username s; password := password s;
     passwordConfirmation := passwordConfirmation s;
     showPassword := showPassword s; err := e |}.

(** Toggle visibility of password field. *)
Definition togglePasswordVisibility (s : State) : State :=
  {| username := username s; password := password s;
     passwordConfirmation := passwordConfirmation s;
     showPassword := negb (showPassword s); err := err s |}.

Inductive Field := usernameField | passwordField | confirmPasswordField.

(** Handle input changes for username, password, and confirmation. *)
Definition handleInputChange (value : list N) (field : Field) (s : State) : State :=
  match field with
  | usernameField =>
      {| username := value; password := password s;
         passwordConfirmation := passwordConfirmation s;
         showPassword := showPassword s; err := err s |}
  | passwordField =>
      {| username := username s; password := value;
         passwordConfirmation := passwordConfirmation s;
         showPassword := showPassword s; err := err s |}
  | confirmPasswordField =>
      {| username := username s; password := password s;
         passwordConfirmation := value;
         showPassword := showPassword s; err := err s |}
  end.

(** Validate inputs based on authType: the state with the message set,
    and the returned boolean. *)
Definition validateInputs (authType : AuthType) (s : State) : State * bool :=
  if negb (JsString.truthy (JsString.trim (username s))) then
    (setErr "Username is required" s, false)
  else if negb (JsString.truthy (JsString.trim (password s))) then
    (setErr "Password is required" s, false)
  else if bool_decide (authType = signup) then
    if negb (JsString.truthy (JsString.trim (passwordConfirmation s))) then
      (setErr "Password confirmation is required" s, false)
    else if negb (bool_decide (password s = passwordConfirmation s)) then
      (setErr "Passwords do not match" s, false)
    else (setErr EmptyString s, true)
  else (setErr EmptyString s, true).

Inductive Effect :=
| PreventDefault
| LoginUser (creds : UserCredentials.t)
| CreateUser (creds : UserCredentials.t)
| SetUser (user : User.t)
| Navigate (path : string).

(** Handle form submission for login or signup.  A request of the user
    service resolves to a user ([inl]) or throws an error whose [message]
    may be missing ([inr]). *)
Definition handleSubmit (authType : AuthType)
    (loginUser createUser : UserCredentials.t → User.t + option string)
    (s : State) : State * list Effect :=
  let '(s1, valid) := validateInputs authType s in
  if negb valid then (s1, [PreventDefault])
  else
    let creds := {| UserCredentials.username := username s;
                    UserCredentials.password := password s |} in
    let request := match authType with
                   | login => LoginUser creds
                   | signup => CreateUser creds
                   end in
    let response := match authType with
                    | login => loginUser creds
                    | signup => createUser creds
                    end in
    match response with
    | inl user => (s1, [PreventDefault; request; SetUser user; Navigate "/home"])
    | inr message =>
        (setErr (or_default message "An error occurred") s1, [PreventDefault; request])
    end.
End useAuth.

(** What the pages [Login] and [Signup] show of the state of the hook:
    the type of the password inputs and the error paragraph, which is
    rendered for a truthy [err] only. *)
Module AuthPage.
Record View := mkView {
  usernameValue : list N;
  passwordValue : list N;
  passwordType : string;
  showPasswordChecked : bool;
  errorMessage : option string;
}.

Definition render (s : useAuth.State) : View :=
  {| usernameValue := useAuth.username s;
     passwordValue := useAuth.password s;
     passwordType := if useAuth.showPassword s then "text" else "password";
     showPasswordChecked := useAuth.showPassword s;
     errorMessage := if bool_decide (useAuth.err s = EmptyString) then None
                     else Some (useAuth.err s) |}.
End AuthPage.

(** ** A sign-up form, filled in *)

Module AuthScenario.
Definition filled : useAuth.State :=
  {| useAuth.username := useNimGamePage.code_units " bob ";
     useAuth.password := useNimGamePage.code_units "secret";
     useAuth.passwordConfirmation := useNimGamePage.code_units "secret";
     useAuth.showPassword := false;
     useAuth.err := "Passwords do not match" |}.

Definition bob : User.t := {| User._id := Some "u7"; User.username := " bob " |}.

(** A user service that accepts every request. *)
Definition accept (creds : UserCredentials.t) : User.t + option string := inl bob.
End AuthScenario.

(** ** The other handlers of the hook [useDirectMessage] *)

Module MessageToSend.
Record t := mk { msg : list N; msgFrom : string; msgDateTime : Z }.
End MessageToSend.

Module DirectMessageHook.

(** The five [useState] cells of the hook; [lists] holds the selected chat
    and the chats. *)
Record State := mkState {
  showCreatePanel : bool;
  chatToCreate : string;
  newMessage : list N;
  lists : useDirectMessage.State;
}.

Definition selectedChat (s : State) : option Chat.t :=
  useDirectMessage.selectedChat (lists s).

Definition chats (s : State) : list Chat.t := useDirectMessage.chats (lists s).

Definition setNewMessage (m : list N) (s : State) : State :=
  {| showCreatePanel := showCreatePanel s; chatToCreate := chatToCreate s;
     newMessage := m; lists := lists s |}.

Definition setSelectedChat (c : option Chat.t) (s : State) : State :=
  {| showCreatePanel := showCreatePanel s; chatToCreate := chatToCreate s;
     newMessage := newMessage s;
     lists := {| useDirectMessage.selectedChat := c;
                 useDirectMessage.chats := chats s |} |}.

Definition setChats (l : list Chat.t) (s : State) : State :=
  {| showCreatePanel := showCreatePanel s; chatToCreate := chatToCreate s;
     newMessage := newMessage s;
     lists := {| useDirectMessage.selectedChat := selectedChat s;
                 useDirectMessage.chats := l |} |}.

Inductive Effect :=
| SocketEmit (event chatID : string)
| SendMessage (message : MessageToSend.t) (chatID : string)
| GetChatById (chatID : string)
| GetChatsByUser (username : string)
| CreateChat (participants : list string)
| ConsoleLog (text : string)
| ConsoleError (text : string).

Definition handleJoinChat (chatID : string) : list Effect := [SocketEmit "joinChat" chatID].

(** [selectedChat?._id], as a condition. *)
Definition selectedChatId (s : State) : option string :=
  useGamePage.truthy_id (selectedChat s ≫= Chat._id).

(** [handleSendMessage]; [now] is [new Date()], and [sendMessage] tells
    whether the request resolves. *)
Definition handleSendMessage (user : User.t) (now : Z)
    (sendMessage : MessageToSend.t → string → bool) (s : State) : State * list Effect :=
  match JsString.truthy (JsString.trim (newMessage s)), selectedChatId s with
  | true, Some chatID =>
      let messageToSend :=
        {| MessageToSend.msg := JsString.trim (newMessage s);
           MessageToSend.msgFrom := User.username user;
           MessageToSend.msgDateTime := now |} in
      if sendMessage messageToSend chatID then
        (setNewMessage [] s,
         [ConsoleLog "Sending message to chat ID:"; SendMessage messageToSend chatID])
      else
        (s, [ConsoleLog "Sending message to chat ID:"; SendMessage messageToSend chatID;
             ConsoleError "Error sending message:"])
  | _, _ => (s, [])
  end.

(** [handleChatSelect]; [getChatById] gives the chat, or [None] when the
    request throws. *)
Definition handleChatSelect (chatID : option string)
    (getChatById : string → option Chat.t) (s : State) : State * list Effect :=
  match useGamePage.truthy_id chatID with
  | None => (s, [])
  | Some chatID =>
      match getChatById chatID with
      | Some chatData =>
          (setSelectedChat (Some chatData) s, GetChatById chatID :: handleJoinChat chatID)
      | None => (s, [GetChatById chatID; ConsoleError "Error selecting chat:"])
      end
  end.

Definition handleUserSelect (selectedUser : User.t) (s : State) : State :=
  {| showCreatePanel := showCreatePanel s; chatToCreate := User.username selectedUser;
     newMessage := newMessage s; lists := lists s |}.

(** [handleCreateChat]; [createChat] gives the new chat, or [None] when
    the request throws. *)
Definition handleCreateChat (user : User.t)
    (createChat : list string → option Chat.t) (s : State) : State * list Effect :=
  match bool_decide (chatToCreate s = EmptyString), useGamePage.truthy_id (User._id user) with
  | false, Some _ =>
      let participants := [User.username user; chatToCreate s] in
      match createChat participants with
      | Some newChat =>
          ({| showCreatePanel := false; chatToCreate := EmptyString;
              newMessage := newMessage s;
              lists := {| useDirectMessage.selectedChat := Some newChat;
                          useDirectMessage.chats := chats s ++ [newChat] |} |},
           CreateChat participants
           :: match useGamePage.truthy_id (Chat._id newChat) with
              | Some chatID => handleJoinChat chatID
              | None => []
              end)
      | None => (s, [CreateChat participants; ConsoleError "Error creating chat:"])
      end
  | _, _ => (s, [])
  end.

(** [fetchChats]; [getChatsByUser] gives the chats, or [None] when the
    request throws. *)
Definition fetchChats (user : User.t)
    (getChatsByUser : string → option (list Chat.t)) (s : State) : State * list Effect :=
  match getChatsByUser (User.username user) with
  | Some userChats => (setChats userChats s, [GetChatsByUser (User.username user)])
  | None => (s, [GetChatsByUser (User.username user); ConsoleError "Error fetching chats:"])
  end.

(** The listener of ['chatUpdate'] on the whole state; [None] when it
    throws. *)
Definition onChatUpdate (chatUpdate : ChatUpdatePayload.t) (s : State) : option State :=
  l ← useDirectMessage.handleChatUpdate chatUpdate (lists s);
  Some {| showCreatePanel := showCreatePanel s; chatToCreate := chatToCreate s;
          newMessage := newMessage s; lists := l |}.

(** The cleanup of the effect, after the listener is removed. *)
Definition cleanup (s : State) : list Effect :=
  match selectedChatId s with
  | Some chatID => [SocketEmit "leaveChat" chatID]
  | None => []
  end.
End DirectMessageHook.

(** ** A conversation being written *)

Module ChatScenario.
Definition writing : DirectMessageHook.State :=
  {| DirectMessageHook.showCreatePanel := true;
     DirectMessageHook.chatToCreate := "p2";
     DirectMessageHook.newMessage := useNimGamePage.code_units "  hello there ";
     DirectMessageHook.lists :=
       {| useDirectMessage.selectedChat := Some Scenario.chat;
          useDirectMessage.chats := [Scenario.chat] |} |}.

(** Nothing selected, no chats yet, [p2] picked for a new chat. *)
Definition picking : DirectMessageHook.State :=
  {| DirectMessageHook.showCreatePanel := true;
     DirectMessageHook.chatToCreate := "p2";
     DirectMessageHook.newMessage := [];
     DirectMessageHook.lists := Scenario.noChats |}.

Definition reply : Message.t :=
  {| Message.msg := "hi"; Message.msgFrom := "p2"; Message.msgDateTime := 5 |}.

(** The chat of the scenario after a message has arrived. *)
Definition answered : Chat.t :=
  {| Chat._id := Some "c1"; Chat.participants := ["p1"; "p2"];
     Chat.messages := [reply] |}.

End ChatScenario.

(** ** The [move] state over a sequence of events *)

Module MoveInput.
(** The value of the [move] state of [useNimGamePage] after the events. *)
Fixpoint moveAfter (events : list useNimGamePage.Event) (move : Z) : Z :=
  match events with
  | [] => move
  | useNimGamePage.InputChange value :: rest =>
      moveAfter rest (useNimGamePage.handleInputChange value move)
  | useNimGamePage.SubmitClick _ _ :: rest => moveAfter rest move
  end.

(** The submit button of the page is shown and enabled. *)
Definition canSubmit (gameState : GameInstance.t) (user : User.t) (move : Z) : Prop :=
  ∃ form, NimGamePage.moveForm (NimGamePage.render gameState user move) = Some form
          ∧ NimGamePage.disabled form = false.
End MoveInput.

(** ** The chat service: documents, the database and its effects *)

Module MessageData.
(** A message as the service receives it; [msgDateTime] may be missing. *)
Record t := mk {
  msg : string;
  msgFrom : string;
  msgDateTime : option Z;
  type : string;
}.
End MessageData.

Module MessageDoc.
Record t := mk {
  _id : option string;
  msg : string;
  msgFrom : string;
  msgDateTime : Z;
  type : string;
}.
End MessageDoc.

Module ChatDoc.
(** A chat document; [messages] holds the identifiers of its messages. *)
Record t := mk {
  _id : option string;
  participants : list string;
  messages : list (option string);
}.
End ChatDoc.

Module UserDoc.
Record t := mk { _id : string; username : string }.
End UserDoc.

Module CreateChatPayload.
Record t := mk {
  participants : list string;
  messages : option (list MessageData.t);
}.
End CreateChatPayload.

(** The value of an expression, or the value it throws: of a thrown value
    the code reads the [message] only, which may be missing. *)
Inductive Exc (A : Type) :=
| Val (a : A)
| Thrown (message : option string).
Arguments Val {A} a.
Arguments Thrown {A} message.

(** What a service function resolves to: the document, or an object with
    an [error] field. *)
Inductive Response (A : Type) :=
| Ok (value : A)
| ErrorResponse (error : string).
Arguments Ok {A} value.
Arguments ErrorResponse {A} error.

(** The requests sent to the database, in order. *)
Inductive DbCall :=
| MessageSave (data : MessageData.t)
| ChatSave (participants : list string) (messages : list (option string))
| ChatFindById (chatId : string)
| ChatPushMessage (chatId messageId : string)
| ChatPushParticipant (chatId userId : string)
| UserFindOne (username : string).

(** The database: what each request returns or throws.  The [k]-th save of
    a message within one call has its own outcome; [newObjectId k] is the
    [k]-th fresh identifier; [now] is [new Date()]. *)
Record Db := mkDb {
  now : Z;
  newObjectId : nat → string;
  message_save : nat → MessageData.t → Exc MessageDoc.t;
  chat_save : list string → list (option string) → Exc ChatDoc.t;
  chat_findById : string → Exc (option ChatDoc.t);
  chat_pushMessage : string → string → Exc (option ChatDoc.t);
  chat_pushParticipant : string → string → Exc (option ChatDoc.t);
  user_findOne : string → Exc (option UserDoc.t);
}.

(** A computation: the requests it made, and its value or what it threw. *)
Module Run.
Definition t (E A : Type) : Type := list E * Exc A.

Definition ret {E A} (a : A) : t E A := ([], Val a).

Definition bind {E A B} (m : t E A) (k : A → t E B) : t E B :=
  match m with
  | (calls, Val a) => let '(calls', r) := k a in (calls ++ calls', r)
  | (calls, Thrown e) => (calls, Thrown e)
  end.

(** One request, with the outcome the environment gives it. *)
Definition call {E A} (e : E) (outcome : Exc A) : t E A := ([e], outcome).

(** [try { m } catch (error) { handler }] *)
Definition catch {E A} (m : t E A) (handler : option string → t E A) : t E A :=
  match m with
  | (calls, Val a) => (calls, Val a)
  | (calls, Thrown e) => let '(calls', r) := handler e in (calls ++ calls', r)
  end.
End Run.

Global Instance Run_ret {E} : MRet (Run.t E) := λ A a, Run.ret a.
Global Instance Run_bind {E} : MBind (Run.t E) := λ A B k m, Run.bind m k.

(** The functions of the version of the service that populates what it
    returns (as [ChatServicePopulate.getChatsByParticipants]). *)
Module ChatServicePopulateOps.

(** The loop of [saveChat] over the messages: each is saved in turn and
    its [_id] is collected; [k] counts the saves made so far. *)
Fixpoint saveMessages (db : Db) (k : nat) (messages : list MessageData.t)
  : Run.t DbCall (list (option string)) :=
  match messages with
  | [] => mret []
  | messageData :: rest =>
      savedMessage ← Run.call (MessageSave messageData) (message_save db k messageData);
      messageIds ← saveMessages db (S k) rest;
      mret (MessageDoc._id savedMessage :: messageIds)
  end.

Definition saveChat (db : Db) (chatPayload : CreateChatPayload.t)
  : Run.t DbCall (Response ChatDoc.t) :=
  Run.catch
    (let participantIds :=
       (λ k, newObjectId db k) <$> seq 0 (length (CreateChatPayload.participants chatPayload)) in
     messageIds ← match CreateChatPayload.messages chatPayload with
                  | Some (m :: rest) => saveMessages db 0 (m :: rest)
                  | _ => mret []
                  end;
     savedChat ← Run.call (ChatSave participantIds messageIds)
                   (chat_save db participantIds messageIds);
     mret (Ok {| ChatDoc._id := ChatDoc._id savedChat;
                 ChatDoc.participants := CreateChatPayload.participants chatPayload;
                 ChatDoc.messages := ChatDoc.messages savedChat |}))
    (λ error, mret (ErrorResponse (or_default error "Failed to save chat"))).

(** [new MessageModel({...messageData, msgDateTime: messageData.msgDateTime
    || new Date()})] *)
Definition withDate (db : Db) (messageData : MessageData.t) : MessageData.t :=
  {| MessageData.msg := MessageData.msg messageData;
     MessageData.msgFrom := MessageData.msgFrom messageData;
     MessageData.msgDateTime :=
       Some (default (now db) (MessageData.msgDateTime messageData));
     MessageData.type := MessageData.type messageData |}.

Definition createMessage (db : Db) (messageData : MessageData.t)
  : Run.t DbCall (Response MessageDoc.t) :=
  Run.catch
    (user ← Run.call (UserFindOne (MessageData.msgFrom messageData))
              (user_findOne db (MessageData.msgFrom messageData));
     match user with
     | None => mret (ErrorResponse "User not found")
     | Some _ =>
         savedMessage ← Run.call (MessageSave (withDate db messageData))
                          (message_save db 0 (withDate db messageData));
         mret (Ok savedMessage)
     end)
    (λ error, mret (ErrorResponse (or_default error "Failed to create message"))).

Definition addMessageToChat (db : Db) (chatId messageId : string)
  : Run.t DbCall (Response ChatDoc.t) :=
  Run.catch
    (updatedChat ← Run.call (ChatPushMessage chatId messageId)
                     (chat_pushMessage db chatId messageId);
     match updatedChat with
     | None => mret (ErrorResponse "Chat not found")
     | Some chat => mret (Ok chat)
     end)
    (λ error, mret (ErrorResponse (or_default error "Failed to add message to chat"))).

Definition getChat (db : Db) (chatId : string) : Run.t DbCall (Response ChatDoc.t) :=
  Run.catch
    (chat ← Run.call (ChatFindById chatId) (chat_findById db chatId);
     match chat with
     | None => mret (ErrorResponse "Chat not found")
     | Some chat => mret (Ok chat)
     end)
    (λ error, mret (ErrorResponse (or_default error "Failed to retrieve chat"))).

(** This version pushes the [_id] of the user it found. *)
Definition addParticipantToChat (db : Db) (chatId userId : string)
  : Run.t DbCall (Response ChatDoc.t) :=
  Run.catch
    (user ← Run.call (UserFindOne userId) (user_findOne db userId);
     match user with
     | None => mret (ErrorResponse "User not found")
     | Some user =>
         updatedChat ← Run.call (ChatPushParticipant chatId (UserDoc._id user))
                         (chat_pushParticipant db chatId (UserDoc._id user));
         match updatedChat with
         | None => mret (ErrorResponse "Chat not found")
         | Some chat => mret (Ok chat)
         end
     end)
    (λ error, mret (ErrorResponse (or_default error "Failed to add participant to chat"))).
End ChatServicePopulateOps.

(** The functions of the version of the service that consults
    [mockingoose] (as [ChatService.getChatsByParticipants]) which do not
    look into its registry. *)
Module ChatServiceOps.

Definition addMessageToChat (db : Db) (chatId messageId : string)
  : Run.t DbCall (Response ChatDoc.t) :=
  Run.catch
    (updatedChat ← Run.call (ChatPushMessage chatId messageId)
                     (chat_pushMessage db chatId messageId);
     match updatedChat with
     | None => mret (ErrorResponse "Chat not found")
     | Some chat => mret (Ok chat)
     end)
    (λ error, mret (ErrorResponse (or_default error "Failed to add message to chat"))).

Definition getChat (db : Db) (chatId : string) : Run.t DbCall (Response ChatDoc.t) :=
  Run.catch
    (chat ← Run.call (ChatFindById chatId) (chat_findById db chatId);
     match chat with
     | None => mret (ErrorResponse "Chat not found")
     | Some chat => mret (Ok chat)
     end)
    (λ error, mret (ErrorResponse (or_default error "Failed to retrieve chat"))).

(** This version pushes the [userId] it was given. *)
Definition addParticipantToChat (db : Db) (chatId userId : string)
  : Run.t DbCall (Response ChatDoc.t) :=
  Run.catch
    (user ← Run.call (UserFindOne userId) (user_findOne db userId);
     match user with
     | None => mret (ErrorResponse "User not found")
     | Some _ =>
         updatedChat ← Run.call (ChatPushParticipant chatId userId)
                         (chat_pushParticipant db chatId userId);
         match updatedChat with
         | None => mret (ErrorResponse "Chat not found")
         | Some chat => mret (Ok chat)
         end
     end)
    (λ error, mret (ErrorResponse (or_default error "Failed to add participant to chat"))).
End ChatServiceOps.

(** ** A small database *)

Module DbScenario.
Definition hello : MessageData.t :=
  {| MessageData.msg := "hello"; MessageData.msgFrom := "p1";
     MessageData.msgDateTime := None; MessageData.type := "direct" |}.

Definition again : MessageData.t :=
  {| MessageData.msg := "again"; MessageData.msgFrom := "p1";
     MessageData.msgDateTime := Some 7; MessageData.type := "direct" |}.

Definition saved (k : nat) (data : MessageData.t) : MessageDoc.t :=
  {| MessageDoc._id := Some (if k is O then "m0" else "m1")%string;
     MessageDoc.msg := MessageData.msg data;
     MessageDoc.msgFrom := MessageData.msgFrom data;
     MessageDoc.msgDateTime := default 0 (MessageData.msgDateTime data);
     MessageDoc.type := MessageData.type data |}.

Definition stored : ChatDoc.t :=
  {| ChatDoc._id := Some "c1"; ChatDoc.participants := ["p1"; "p2"];
     ChatDoc.messages := [] |}.

(** A database that knows the user [p1] and the chat [c1] only, and in
    which every save succeeds. *)
Definition db : Db :=
  {| now := 100;
     newObjectId := λ k, (if k is O then "o0" else "o1")%string;
     message_save := λ k data, Val (saved k data);
     chat_save := λ participants messages,
       Val {| ChatDoc._id := Some "c1"; ChatDoc.participants := participants;
              ChatDoc.messages := messages |};
     chat_findById := λ chatId,
       Val (if bool_decide (chatId = "c1"%string) then Some stored else None);
     chat_pushMessage := λ chatId messageId,
       Val (if bool_decide (chatId = "c1"%string) then Some stored else None);
     chat_pushParticipant := λ chatId userId,
       Val (if bool_decide (chatId = "c1"%string) then Some stored else None);
     user_findOne := λ username,
       Val (if bool_decide (username = "p1"%string)
            then Some {| UserDoc._id := "u1"; UserDoc.username := "p1" |}
            else None) |}.

Definition payload : CreateChatPayload.t :=
  {| CreateChatPayload.participants := ["p1"; "p2"];
     CreateChatPayload.messages := Some [hello; again] |}.
End DbScenario.

(** ** The chat controller *)

(** The body of a request, as the JSON parser delivers it. *)
#[warnings="-register-all"]
Inductive json :=
| JsonNull
| JsonBool (b : bool)
| JsonNumber (n : Z)
| JsonString (s : list N)
| JsonArray (items : list json)
| JsonObject (fields : gmap string json).

Module chatController.

Record Request := mkRequest {
  (** [req.body], [None] when it is [undefined] *)
  body : option json;
  (** [req.params] *)
  params : gmap string string;
}.

(** A value in a condition. *)
Definition truthy (v : option json) : bool :=
  match v with
  | None | Some JsonNull => false
  | Some (JsonBool b) => b
  | Some (JsonNumber n) => negb (n =? 0)
  | Some (JsonString s) => JsString.truthy s
  | Some (JsonArray _) | Some (JsonObject _) => true
  end.

(** [v.key]: [undefined] unless [v] is an object that has the key (none of
    the keys read here is a property of strings, numbers or arrays). *)
Definition field (key : string) (v : json) : option json :=
  match v with
  | JsonObject fields => fields !! key
  | _ => None
  end.

Definition isString (v : option json) : bool :=
  match v with Some (JsonString _) => true | _ => false end.

(** [typeof v === 'object'] *)
Definition typeofObject (v : option json) : bool :=
  match v with
  | Some JsonNull | Some (JsonArray _) | Some (JsonObject _) => true
  | _ => false
  end.

(** [key in v], for a [v] whose type is ['object'] and a key that is not
    an index *)
Definition hasKey (key : string) (v : option json) : bool :=
  match v with
  | Some (JsonObject fields) => bool_decide (is_Some (fields !! key))
  | _ => false
  end.

(** [v.trim().length > 0], for a string [v] *)
Definition trimmedNonEmpty (v : option json) : bool :=
  match v with
  | Some (JsonString s) => JsString.truthy (JsString.trim s)
  | _ => false
  end.

(** Validates that the request body contains all required fields for a
    chat. *)
Definition isCreateChatRequestValid (req : Request) : bool :=
  truthy (body req)
  && truthy (body req ≫= field "participants")
  && match body req ≫= field "participants" with
     | Some (JsonArray participants) =>
         (0 <? length participants)%nat
         && forallb (λ participant,
                       isString (Some participant) && trimmedNonEmpty (Some participant))
                    participants
     | _ => false
     end.

(** Validates that the request body contains all required fields for a
    message. *)
Definition isAddMessageRequestValid (req : Request) : bool :=
  truthy (body req)
  && truthy (body req ≫= field "msg")
  && truthy (body req ≫= field "msgFrom")
  && isString (body req ≫= field "msg")
  && isString (body req ≫= field "msgFrom")
  && trimmedNonEmpty (body req ≫= field "msg")
  && trimmedNonEmpty (body req ≫= field "msgFrom").

(** Validates that the request body contains all required fields for a
    participant. *)
Definition isAddParticipantRequestValid (req : Request) : bool :=
  if negb (truthy (body req)) || negb (typeofObject (body req)) then false
  else if negb (hasKey "userId" (body req))
          || negb (isString (body req ≫= field "userId")) then false
  else trimmedNonEmpty (body req ≫= field "userId").

(** The message that [addMessageToChatRoute] builds from the body: the date
    is the one of the body, or [None] for [new Date()]; the type is the one
    of the body, or ['direct']. *)
Record MessageFields := mkMessageFields {
  msg : option json;
  msgFrom : option json;
  msgDateTime : option json;
  type : json;
}.

Inductive ResponseBody :=
| ErrorJson (error : string)
| ChatJson (chat : Chat.t)
| ChatDocJson (chat : ChatDoc.t)
| ChatsJson (chats : list Chat.t)
| Text (text : string).

(** Calls of the service and of [populateDocument], socket emissions and
    the response, in order. *)
Inductive Effect :=
| SaveChat (body : option json)
| CreateMessage (messageData : MessageFields)
| AddMessageToChat (chatId : option string) (messageId : string)
| GetChat (chatId : option string)
| AddParticipantToChat (chatId : option string) (userId : option json)
| GetChatsByParticipants (p : list (option string))
| PopulateDocument (id type : string)
| Emit (payload : ChatUpdatePayload.t)
| EmitTo (room : option string) (payload : ChatUpdatePayload.t)
| Respond (status : Z) (body : ResponseBody).

(** What the imported functions resolve to, or throw. *)
Record Services := mkServices {
  saveChat : option json → Exc (Response ChatDoc.t);
  createMessage : MessageFields → Exc (Response MessageDoc.t);
  addMessageToChat : option string → string → Exc (Response ChatDoc.t);
  getChat : option string → Exc (Response ChatDoc.t);
  addParticipantToChat : option string → option json → Exc (Response ChatDoc.t);
  getChatsByParticipants : list (option string) → Exc (list ChatDoc.t);
  populateDocument : string → string → Exc (Response Chat.t);
}.

(** [id!.toString()]: a [TypeError] when the identifier is [undefined]. *)
Definition toString (id : option string) : Run.t Effect string :=
  match id with
  | Some id => mret id
  | None => ([], Thrown (Some "Cannot read properties of undefined (reading 'toString')"%string))
  end.

Definition respond (status : Z) (body : ResponseBody) : Run.t Effect unit :=
  Run.call (Respond status body) (Val tt).

(** The [catch] block of every route. *)
Definition internalServerError (error : option string) : Run.t Effect unit :=
  respond 500 (ErrorJson "Internal server error").

Definition createChatRoute (sv : Services) (req : Request) : list Effect :=
  (Run.catch
     (if negb (isCreateChatRequestValid req) then
        respond 400 (ErrorJson "Invalid request body")
      else
        result ← Run.call (SaveChat (body req)) (saveChat sv (body req));
        match result with
        | ErrorResponse e => respond 500 (ErrorJson e)
        | Ok result =>
            id ← toString (ChatDoc._id result);
            populatedChat ← Run.call (PopulateDocument id "chat")
                              (populateDocument sv id "chat");
            match populatedChat with
            | ErrorResponse e => respond 500 (ErrorJson e)
            | Ok populatedChat =>
                let updatePayload :=
                  {| ChatUpdatePayload.chat := populatedChat;
                     ChatUpdatePayload.type := "created" |} in
                _ ← Run.call (Emit updatePayload) (Val tt);
                respond 200 (ChatJson populatedChat)
            end
        end)
     internalServerError).1.

Definition addMessageToChatRoute (sv : Services) (req : Request) : list Effect :=
  (Run.catch
     (if negb (isAddMessageRequestValid req) then
        respond 400 (ErrorJson "Invalid request body")
      else
        let chatId := params req !! "chatId"%string in
        let messageData :=
          {| msg := body req ≫= field "msg";
             msgFrom := body req ≫= field "msgFrom";
             msgDateTime := if truthy (body req ≫= field "msgDateTime")
                            then body req ≫= field "msgDateTime" else None;
             type := match body req ≫= field "type" with
                     | Some t => if truthy (Some t) then t
                                 else JsonString (useNimGamePage.code_units "direct")
                     | None => JsonString (useNimGamePage.code_units "direct")
                     end |} in
        messageResult ← Run.call (CreateMessage messageData) (createMessage sv messageData);
        match messageResult with
        | ErrorResponse e => respond 500 (ErrorJson e)
        | Ok messageResult =>
            messageId ← toString (MessageDoc._id messageResult);
            chatResult ← Run.call (AddMessageToChat chatId messageId)
                           (addMessageToChat sv chatId messageId);
            match chatResult with
            | ErrorResponse e => respond 500 (ErrorJson e)
            | Ok chatResult =>
                id ← toString (ChatDoc._id chatResult);
                populatedChat ← Run.call (PopulateDocument id "chat")
                                  (populateDocument sv id "chat");
                match populatedChat with
                | ErrorResponse e => respond 500 (ErrorJson e)
                | Ok populatedChat =>
                    let updatePayload :=
                      {| ChatUpdatePayload.chat := populatedChat;
                         ChatUpdatePayload.type := "newMessage" |} in
                    _ ← Run.call (EmitTo chatId updatePayload) (Val tt);
                    respond 200 (ChatJson populatedChat)
                end
            end
        end)
     internalServerError).1.

Definition getChatRoute (sv : Services) (req : Request) : list Effect :=
  (Run.catch
     (let chatId := params req !! "chatId"%string in
      result ← Run.call (GetChat chatId) (getChat sv chatId);
      match result with
      | ErrorResponse e => respond 404 (ErrorJson e)
      | Ok result =>
          id ← toString (ChatDoc._id result);
          populatedChat ← Run.call (PopulateDocument id "chat")
                            (populateDocument sv id "chat");
          match populatedChat with
          | ErrorResponse e => respond 500 (ErrorJson e)
          | Ok populatedChat => respond 200 (ChatJson populatedChat)
          end
      end)
     internalServerError).1.

Definition addParticipantToChatRoute (sv : Services) (req : Request) : list Effect :=
  (Run.catch
     (if negb (isAddParticipantRequestValid req) then
        respond 400 (ErrorJson "Invalid request body")
      else
        let chatId := params req !! "chatId"%string in
        let userId := body req ≫= field "userId" in
        result ← Run.call (AddParticipantToChat chatId userId)
                   (addParticipantToChat sv chatId userId);
        match result with
        | ErrorResponse e => respond 400 (ErrorJson e)
        | Ok result => respond 200 (ChatDocJson result)
        end)
     internalServerError).1.

(** The loop of [getChatsByUserRoute]: the populated chats, or [None] when
    a population failed and the response was sent. *)
Fixpoint populateAll (sv : Services) (chats : list ChatDoc.t)
  : Run.t Effect (option (list Chat.t)) :=
  match chats with
  | [] => mret (Some [])
  | chat :: rest =>
      id ← toString (ChatDoc._id chat);
      populatedChat ← Run.call (PopulateDocument id "chat") (populateDocument sv id "chat");
      match populatedChat with
      | ErrorResponse _ =>
          _ ← respond 500 (Text "Error retrieving chat: Failed populating chats");
          mret None
      | Ok populatedChat =>
          populatedChats ← populateAll sv rest;
          mret ((λ l, populatedChat :: l) <$> populatedChats)
      end
  end.

Definition getChatsByUserRoute (sv : Services) (req : Request) : list Effect :=
  (Run.catch
     (let username := params req !! "username"%string in
      chats ← Run.call (GetChatsByParticipants [username])
                (getChatsByParticipants sv [username]);
      populatedChats ← populateAll sv chats;
      match populatedChats with
      | Some populatedChats => respond 200 (ChatsJson populatedChats)
      | None => mret tt
      end)
     internalServerError).1.

(** The rooms of one connection, and the listeners of [joinChat] and
    [leaveChat]: the identifier sent by the client is used when it is a
    string that is not blank. *)
Definition roomOf (chatID : option json) : option (list N) :=
  match chatID with
  | Some (JsonString s) =>
      if truthy chatID && isString chatID && trimmedNonEmpty chatID then Some s else None
  | _ => None
  end.

Definition onJoinChat (chatID : option json) (rooms : gset (list N)) : gset (list N) :=
  match roomOf chatID with
  | Some room => {[room]} ∪ rooms
  | None => rooms
  end.

Definition onLeaveChat (chatID : option json) (rooms : gset (list N)) : gset (list N) :=
  match roomOf chatID with
  | Some room => rooms ∖ {[room]}
  | None => rooms
  end.

Inductive SocketEvent :=
| joinChat (chatID : option json)
| leaveChat (chatID : option json).

Definition onEvent (rooms : gset (list N)) (e : SocketEvent) : gset (list N) :=
  match e with
  | joinChat chatID => onJoinChat chatID rooms
  | leaveChat chatID => onLeaveChat chatID rooms
  end.

(** The rooms of a connection after the events, from its start. *)
Definition roomsAfter (events : list SocketEvent) : gset (list N) :=
  fold_left onEvent events ∅.
End chatController.

(** ** What a route did *)

Module RouteTrace.
Import chatController.

(** The responses sent, in order. *)
Definition responses (effects : list Effect) : list (Z * ResponseBody) :=
  omap (λ e, match e with Respond status body => Some (status, body) | _ => None end)
       effects.

(** The chat updates emitted, to everybody or to a room. *)
Definition updates (effects : list Effect) : list ChatUpdatePayload.t :=
  omap (λ e, match e with
             | Emit payload | EmitTo _ payload => Some payload
             | _ => None
             end) effects.

(** The identifiers handed to [populateDocument], in order. *)
Definition populated (effects : list Effect) : list string :=
  omap (λ e, match e with PopulateDocument id _ => Some id | _ => None end) effects.

(** A string that is not blank. *)
Definition nonBlank (v : option json) : Prop :=
  ∃ s, v = Some (JsonString s) ∧ JsString.trim s ≠ [].
End RouteTrace.

(** ** Requests to the chat controller *)

Module ControllerScenario.
Import chatController.

Definition str (s : string) : json := JsonString (useNimGamePage.code_units s).

(** [{participants: ['p1', 'p2']}] *)
Definition createBody : json :=
  JsonObject {[ "participants"%string := JsonArray [str "p1"; str "p2"] ]}.

Definition createRequest : Request := {| body := Some createBody; params := ∅ |}.

(** [{msg: 'hi', msgFrom: 'p2'}], sent to [/c1/addMessage], whose pattern
    names the parameter [chatID]. *)
Definition messageRequest : Request :=
  {| body := Some (JsonObject {[ "msg"%string := str "hi"; "msgFrom"%string := str "p2" ]});
     params := {[ "chatID"%string := "c1"%string ]} |}.

Definition participantRequest : Request :=
  {| body := Some (JsonObject {[ "userId"%string := str "p2" ]});
     params := {[ "chatID"%string := "c1"%string ]} |}.

Definition userRequest : Request :=
  {| body := None; params := {[ "username"%string := "p1"%string ]} |}.

Definition savedMessage : MessageDoc.t :=
  {| MessageDoc._id := Some "m1"; MessageDoc.msg := "hi"; MessageDoc.msgFrom := "p2";
     MessageDoc.msgDateTime := 5; MessageDoc.type := "direct" |}.

(** Services that find the chat [c1] of the scenario whatever they are
    asked. *)
Definition services : Services :=
  {| saveChat := λ _, Val (Ok DbScenario.stored);
     createMessage := λ _, Val (Ok savedMessage);
     addMessageToChat := λ _ _, Val (Ok DbScenario.stored);
     getChat := λ _, Val (Ok DbScenario.stored);
     addParticipantToChat := λ _ _, Val (Ok DbScenario.stored);
     getChatsByParticipants := λ _, Val [DbScenario.stored];
     populateDocument := λ _ _, Val (Ok Scenario.chat) |}.
End ControllerScenario.

(** ** The routes as they are registered *)

Module Router.
Import chatController.

Inductive Method := GET | POST.

(** A segment of a path pattern: a literal, or a named parameter
    ([:name]). *)
Inductive Segment :=
| Literal (text : string)
| Named (name : string).

Inductive Handler :=
| createChat
| addMessageToChat
| getChat
| addParticipantToChat
| getChatsByUser.

(** Register the routes. *)
Definition routes : list (Method * list Segment * Handler) :=
  [ (POST, [Literal "createChat"], createChat);
    (POST, [Named "chatID"; Literal "addMessage"], addMessageToChat);
    (GET, [Named "chatID"], getChat);
    (POST, [Named "chatID"; Literal "addParticipant"], addParticipantToChat);
    (GET, [Literal "getChatsByUser"; Named "username"], getChatsByUser) ].

(** The keys of [req.params] for a request matched by the pattern: the
    names of its parameters. *)
Definition paramNames (pattern : list Segment) : list string :=
  omap (λ segment, match segment with
                   | Named name => Some name
                   | Literal _ => None
                   end) pattern.

Definition run (handler : Handler) (sv : Services) (req : Request) : list Effect :=
  match handler with
  | createChat => createChatRoute sv req
  | addMessageToChat => addMessageToChatRoute sv req
  | getChat => getChatRoute sv req
  | addParticipantToChat => addParticipantToChatRoute sv req
  | getChatsByUser => getChatsByUserRoute sv req
  end.

(** The chat identifiers that the effect hands on. *)
Definition chatIdOf (e : Effect) : option (option string) :=
  match e with
  | AddMessageToChat chatId _ | GetChat chatId | AddParticipantToChat chatId _
  | EmitTo chatId _ => Some chatId
  | _ => None
  end.
End Router.

(** * Properties *)

(** ** [parseInt] on a few inputs *)

Example parseInt_2 : useNimGamePage.parseInt (useNimGamePage.code_units "  2.5x") = Some 2.
Proof. reflexivity. Qed.
Example parseInt_neg : useNimGamePage.parseInt (useNimGamePage.code_units "-12") = Some (-12).
Proof. reflexivity. Qed.
Example parseInt_nan : useNimGamePage.parseInt (useNimGamePage.code_units "e3") = None.
Proof. reflexivity. Qed.
Example handleInputChange_keeps :
  useNimGamePage.handleInputChange (useNimGamePage.code_units "7") 2 = 2.
Proof. reflexivity. Qed.
Example handleInputChange_takes :
  useNimGamePage.handleInputChange (useNimGamePage.code_units " 3abc") 1 = 3.
Proof. reflexivity. Qed.

(** ** The engine keeps the invariants of the data model *)

Section EngineInvariants.
Import GameEngine NimGameState.

Lemma validate_accepts st p m st' :
  validate st p m = inl st' →
  status st = IN_PROGRESS ∧ seat st (turn st) = Some p
  ∧ legal st (NimMove.numObjects m) = true
  ∧ st' = commit st p (NimMove.numObjects m).
Proof.
  unfold validate. intros H.
  destruct (bool_decide (status st = IN_PROGRESS)) eqn:Hs; simpl in H; [|discriminate].
  destruct (bool_decide (seat st (turn st) = Some p)) eqn:Ht; simpl in H; [|discriminate].
  destruct (legal st (NimMove.numObjects m)) eqn:Hl; simpl in H; [|discriminate].
  apply bool_decide_eq_true in Hs, Ht. by inversion H.
Qed.

Lemma turn_lt_numSeats st : (turn st = 0 ∨ turn st = 1)%nat.
Proof.
  unfold turn, numSeats.
  pose proof (Nat.mod_upper_bound (length (movesOf st)) 2). lia.
Qed.

(** Under the invariants, the player other than the one to move is the
    occupant of the other seat, and is somebody else. *)
Lemma otherPlayer_opponent st p :
  invariant st → status st = IN_PROGRESS → seat st (turn st) = Some p →
  ∃ opp, otherPlayer st p = Some opp ∧ opp ≠ p ∧ seated st opp = true
         ∧ seat st ((turn st + 1) mod numSeats) = Some opp.
Proof.
  intros Hinv Hst Hseat.
  destruct (inv_seats_filled _ Hinv) as [[a Ha] [b Hb]]; [by rewrite Hst|].
  pose proof (inv_distinct _ Hinv a Ha) as Hd.
  unfold otherPlayer, seated.
  destruct (turn_lt_numSeats st) as [Ht|Ht]; rewrite Ht in *; simpl in *.
  - rewrite Hseat in Ha. injection Ha as <-.
    rewrite Hseat, Hb, bool_decide_eq_true_2 by done.
    exists b. repeat split; [congruence|].
    rewrite (bool_decide_eq_true_2 (Some b = Some b)) by done.
    by rewrite orb_true_r.
  - rewrite Hseat in Hb. injection Hb as <-.
    rewrite Ha, Hseat, bool_decide_eq_false_2 by congruence.
    exists a. repeat split; [congruence|].
    by rewrite (bool_decide_eq_true_2 (Some a = Some a)) by done.
Qed.

Lemma invariant_initialState pile : 0 <= pile → invariant (initialState pile).
Proof.
  intros Hp. split; simpl; done.
Qed.

Lemma invariant_commit st p m st' :
  invariant st → validate st p m = inl st' → invariant st'.
Proof.
  intros Hinv Hv.
  destruct (validate_accepts _ _ _ _ Hv) as (Hst & Hseat & Hl & ->).
  destruct (otherPlayer_opponent _ _ Hinv Hst Hseat) as (opp & Hopp & _).
  unfold legal in Hl. apply andb_prop in Hl as [_ Hle]. apply Z.leb_le in Hle.
  destruct Hinv as [Hn Hf Hw Hd Hm Hwin].
  split; unfold commit; simpl.
  - lia.
  - intros _. apply Hf. by rewrite Hst.
  - destruct (_ =? 0); [done|]. by rewrite Hst.
  - done.
  - done.
  - destruct (_ =? 0).
    + intros _. rewrite Hopp. by eexists.
    + by rewrite Hst.
Qed.

Lemma invariant_join st p st' :
  invariant st → join st p = inl st' → invariant st'.
Proof.
  intros Hinv. unfold join.
  destruct (seated st p) eqn:Hseated; [by intros [= <-]|].
  apply orb_false_elim in Hseated as [H1 H2].
  apply bool_decide_eq_false in H1, H2.
  case_bool_decide as Hst; [|done].
  destruct Hinv as [Hn Hf Hw Hd Hm Hwin].
  pose proof (Hw Hst) as Hp2. rewrite Hp2.
  destruct (player1 st) as [a|] eqn:Hp1; intros [= <-]; split; simpl;
    rewrite ?Hst; try done; try congruence; eauto.
Qed.

Lemma invariant_leave st p : invariant st → invariant (leave st p).
Proof.
  intros Hinv. unfold leave.
  destruct (status st) eqn:Hst; [| |done].
  - destruct Hinv as [Hn Hf Hw Hd Hm Hwin].
    split; simpl; try done.
    + intros _. rewrite (Hw Hst). by case_bool_decide.
    + intros q. repeat case_bool_decide; try done. apply Hd.
  - destruct (seated st p) eqn:Hseated; [|done].
    pose proof Hinv as [Hn Hf Hw Hd Hm Hwin].
    destruct Hf as [[a Ha] [b Hb]]; [by rewrite Hst|].
    split; simpl; try done.
    intros _. unfold otherPlayer. case_bool_decide; rewrite ?Ha, ?Hb; by eexists.
Qed.

Lemma invariant_act st a : invariant st → invariant (act st a).
Proof.
  intros Hinv. destruct a as [p|p|p m]; simpl.
  - destruct (join st p) eqn:Hj; [by eapply invariant_join|done].
  - by apply invariant_leave.
  - destruct (validate st p m) eqn:Hv; [by eapply invariant_commit|done].
Qed.

(** Every state a game can reach from its creation satisfies them. *)
Lemma invariant_play pile actions : 0 <= pile → invariant (play pile actions).
Proof.
  intros Hp. unfold play.
  generalize (invariant_initialState pile Hp).
  generalize (initialState pile).
  induction actions as [|a actions IH]; intros st Hinv; simpl; [done|].
  apply IH. by apply invariant_act.
Qed.
End EngineInvariants.

(** ** Turn order and the end of the game *)

Section NimGame.
Import GameEngine NimGameState NimGamePage.

Lemma getCurrentPlayer_seat g :
  getCurrentPlayer g = seat (GameInstance.state g) (turn (GameInstance.state g)).
Proof.
  unfold getCurrentPlayer, turn, movesOf, numSeats.
  destruct (moves (GameInstance.state g)) as [ms|]; [|done].
  change (default [] (Some ms)) with ms.
  destruct (Nat.ltb_spec 0 (length ms)) as [Hpos|Hzero].
  - pose proof (Nat.mod_upper_bound (length ms) 2 ltac:(lia)) as Hlt.
    destruct (length ms mod 2)%nat as [|[|n]]; [done|done|lia].
  - by replace (length ms) with 0%nat by lia.
Qed.

Lemma validate_not_in_progress st p m :
  status st ≠ IN_PROGRESS → validate st p m = inr GameNotInProgress.
Proof. intros Hs. unfold validate. by rewrite bool_decide_eq_false_2. Qed.

Lemma validate_not_your_turn st p m :
  status st = IN_PROGRESS → seat st (turn st) ≠ Some p →
  validate st p m = inr NotYourTurn.
Proof.
  intros Hs Ht. unfold validate.
  rewrite bool_decide_eq_true_2 by done. simpl.
  by rewrite bool_decide_eq_false_2.
Qed.

Lemma validate_illegal st p m :
  status st = IN_PROGRESS → seat st (turn st) = Some p →
  legal st (NimMove.numObjects m) = false →
  validate st p m = inr IllegalMove.
Proof.
  intros Hs Ht Hl. unfold validate.
  rewrite !bool_decide_eq_true_2 by done. simpl. by rewrite Hl.
Qed.

Lemma midgame_invariant : invariant Scenario.midgame.
Proof. apply invariant_play. lia. Qed.

Lemma started_invariant : invariant Scenario.started.
Proof. apply invariant_play. lia. Qed.
End NimGame.

(** C2: the player entitled to make move [k], the number of moves made so
    far, is the occupant of seat [k mod 2]: [getCurrentPlayer] returns
    [player1] when the number of moves is even (none included) and
    [player2] when it is odd; while the game is in progress a move by
    anybody else, the occupant of the other seat in particular, is
    rejected with [NotYourTurn], and a move that is accepted is the
    current player's and becomes move [k]. *)
Theorem turn_alternation (g : GameInstance.t) :
  let st := GameInstance.state g in
  let k := length (GameEngine.movesOf st) in
  NimGamePage.getCurrentPlayer g = GameEngine.seat st (k mod 2)
  ∧ (Nat.even k = true → NimGamePage.getCurrentPlayer g = NimGameState.player1 st)
  ∧ (Nat.even k = false → NimGamePage.getCurrentPlayer g = NimGameState.player2 st)
  ∧ (∀ p m, NimGameState.status st = IN_PROGRESS →
            NimGamePage.getCurrentPlayer g ≠ Some p →
            GameEngine.validate st p m = inr GameEngine.NotYourTurn)
  ∧ (∀ p m, GameEngine.invariant st → NimGameState.status st = IN_PROGRESS →
            GameEngine.seat st ((k + 1) mod 2) = Some p →
            GameEngine.validate st p m = inr GameEngine.NotYourTurn)
  ∧ (∀ p m st', GameEngine.validate st p m = inl st' →
            NimGamePage.getCurrentPlayer g = Some p
            ∧ GameEngine.movesOf st' !! k
              = Some (MoveEntry.mk p (NimMove.numObjects m))).
Proof.
  intros st k.
  pose proof (getCurrentPlayer_seat g) as Hcur.
  fold st in Hcur. unfold GameEngine.turn, GameEngine.numSeats in Hcur. fold k in Hcur.
  assert (Hpar : (k mod 2 = if Nat.even k then 0 else 1)%nat).
  { rewrite <- Nat.negb_odd, <- Nat.bit0_mod, Nat.bit0_odd.
    by destruct (Nat.odd k). }
  split; [done|].
  split; [intros He; rewrite Hcur, Hpar, He; done|].
  split; [intros He; rewrite Hcur, Hpar, He; done|].
  split; [|split].
  - intros p m Hs Hne. apply validate_not_your_turn; [done|].
    unfold GameEngine.turn, GameEngine.numSeats. fold k. by rewrite <- Hcur.
  - intros p m Hinv Hs Hother. apply validate_not_your_turn; [done|].
    intros Hmine.
    destruct (otherPlayer_opponent st p Hinv Hs Hmine) as (opp & _ & Hne & _ & Hseat).
    unfold GameEngine.turn, GameEngine.numSeats in Hseat. fold k in Hseat.
    rewrite Nat.Div0.add_mod_idemp_l in Hseat. congruence.
  - intros p m st' Hv.
    destruct (validate_accepts _ _ _ _ Hv) as (_ & Hseat & _ & ->).
    unfold GameEngine.turn, GameEngine.numSeats in Hseat. fold k in Hseat.
    split; [congruence|].
    unfold GameEngine.commit, GameEngine.movesOf at 1. simpl.
    by rewrite lookup_app_r, Nat.sub_diag.
Qed.

Lemma turn_alternation_witness :
  NimGamePage.getCurrentPlayer (Scenario.instance Scenario.midgame) = Some "p1"%string
  ∧ NimGamePage.getCurrentPlayer (Scenario.instance Scenario.finished) = Some "p2"%string
  ∧ GameEngine.validate Scenario.midgame "p2" (NimMove.mk 1) = inr GameEngine.NotYourTurn
  ∧ GameEngine.movesOf Scenario.finished !! 2%nat = Some (MoveEntry.mk "p1" 3).
Proof.
  destruct (turn_alternation (Scenario.instance Scenario.midgame))
    as (_ & Heven & _ & _ & Hother & Hok).
  destruct (turn_alternation (Scenario.instance Scenario.finished))
    as (_ & _ & Hodd & _).
  split; [exact (Heven eq_refl)|].
  split; [exact (Hodd eq_refl)|].
  split.
  - apply Hother; [apply midgame_invariant|reflexivity|reflexivity].
  - exact (proj2 (Hok "p1"%string (NimMove.mk 3) Scenario.finished eq_refl)).
Defined.

(** C1: when an accepted move brings the pile to exactly zero, the game is
    over and its only winner is the seated player other than the mover, so
    that whoever removes the last object loses; the page then shows that
    player, [winners[0]], as the winner. *)
Theorem misere_termination (g : GameInstance.t) (p : string) (m : NimMove.t)
    (st' : NimGameState.t) :
  GameEngine.invariant (GameInstance.state g) →
  GameEngine.validate (GameInstance.state g) p m = inl st' →
  NimGameState.remainingObjects st' = 0 →
  NimGameState.status st' = OVER
  ∧ ∃ opp, NimGameState.winners st' = Some [opp]
         ∧ opp ≠ p
         ∧ GameEngine.otherPlayer (GameInstance.state g) p = Some opp
         ∧ GameEngine.seated (GameInstance.state g) opp = true
         ∧ ∀ user move,
             NimGamePage.winnerText
               (NimGamePage.render (GameEngine.withState g st') user move)
             = Some opp.
Proof.
  intros Hinv Hv Hzero.
  destruct (validate_accepts _ _ _ _ Hv) as (Hst & Hseat & _ & ->).
  destruct (otherPlayer_opponent _ _ Hinv Hst Hseat) as (opp & Hopp & Hne & Hs & _).
  unfold GameEngine.commit in *. simpl in Hzero.
  apply Z.eqb_eq in Hzero.
  unfold NimGamePage.render. simpl. rewrite Hzero, Hopp. simpl.
  split; [done|].
  exists opp. by repeat split.
Qed.

Lemma misere_termination_witness :
  NimGameState.status Scenario.finished = OVER
  ∧ ∃ opp, NimGameState.winners Scenario.finished = Some [opp]
         ∧ opp ≠ "p1"%string
         ∧ GameEngine.otherPlayer Scenario.midgame "p1" = Some opp
         ∧ GameEngine.seated Scenario.midgame opp = true
         ∧ ∀ user move,
             NimGamePage.winnerText
               (NimGamePage.render
                  (GameEngine.withState (Scenario.instance Scenario.midgame)
                     Scenario.finished) user move)
             = Some opp.
Proof.
  apply (misere_termination (Scenario.instance Scenario.midgame) "p1" (NimMove.mk 3)).
  - apply midgame_invariant.
  - reflexivity.
  - reflexivity.
Defined.

(** C7: moves are permitted only while the game is in progress.  The page
    shows the move input and the submit button exactly when the status is
    [IN_PROGRESS], the button being disabled unless it is the user's turn;
    the engine rejects a move in any other status with
    [GameNotInProgress], so that every accepted move is made in progress;
    a waiting game accepts a join; and no request changes a game that is
    over. *)
Theorem moves_only_in_progress (g : GameInstance.t) (user : User.t) (move : Z) :
  let st := GameInstance.state g in
  (is_Some (NimGamePage.moveForm (NimGamePage.render g user move))
   ↔ NimGameState.status st = IN_PROGRESS)
  ∧ (NimGameState.status st = IN_PROGRESS →
     NimGamePage.moveForm (NimGamePage.render g user move)
     = Some {| NimGamePage.value := move;
               NimGamePage.disabled := negb (NimGamePage.isUserTurn g user) |})
  ∧ (∀ p m, NimGameState.status st ≠ IN_PROGRESS →
            GameEngine.validate st p m = inr GameEngine.GameNotInProgress)
  ∧ (∀ p m st', GameEngine.validate st p m = inl st' →
            NimGameState.status st = IN_PROGRESS)
  ∧ (NimGameState.status st = WAITING → GameEngine.invariant st →
     ∀ p, ∃ st', GameEngine.join st p = inl st' ∧ GameEngine.seated st' p = true)
  ∧ (NimGameState.status st = OVER → ∀ a, GameEngine.act st a = st).
Proof.
  intros st. unfold NimGamePage.render. fold st. simpl.
  split; [|split; [|split; [|split; [|split]]]].
  - case_bool_decide as Hs; split; intros H; first [done | by destruct H].
  - intros Hs. by rewrite bool_decide_eq_true_2.
  - intros p m Hs. by apply validate_not_in_progress.
  - intros p m st' Hv. by destruct (validate_accepts _ _ _ _ Hv) as (? & _).
  - intros Hs Hinv p. unfold GameEngine.join.
    destruct (GameEngine.seated st p) eqn:Hseated; [by exists st|].
    rewrite bool_decide_eq_true_2 by done.
    rewrite (GameEngine.inv_waiting _ Hinv Hs).
    unfold GameEngine.seated, GameEngine.setSeats.
    destruct (NimGameState.player1 st) as [a|]; eexists; (split; [done|]); simpl.
    + rewrite (bool_decide_eq_true_2 (Some p = Some p)) by done. apply orb_true_r.
    + by rewrite bool_decide_eq_true_2.
  - intros Hs [p|p|p m]; simpl.
    + unfold GameEngine.join. destruct (GameEngine.seated st p); [done|].
      by rewrite bool_decide_eq_false_2 by congruence.
    + unfold GameEngine.leave. by rewrite Hs.
    + rewrite validate_not_in_progress; [done|congruence].
Qed.

Lemma moves_only_in_progress_witness :
  NimGamePage.moveForm (NimGamePage.render (Scenario.instance Scenario.midgame) Scenario.p2 2)
  = Some {| NimGamePage.value := 2; NimGamePage.disabled := true |}
  ∧ GameEngine.validate Scenario.finished "p2" (NimMove.mk 1)
    = inr GameEngine.GameNotInProgress
  ∧ GameEngine.validate (GameEngine.initialState 7) "p1" (NimMove.mk 1)
    = inr GameEngine.GameNotInProgress
  ∧ (∃ st', GameEngine.join (GameEngine.initialState 7) "p1" = inl st'
            ∧ GameEngine.seated st' "p1" = true)
  ∧ GameEngine.act Scenario.finished (GameEngine.Join "p3") = Scenario.finished.
Proof.
  destruct (moves_only_in_progress (Scenario.instance Scenario.midgame) Scenario.p2 2)
    as (_ & Hform & _).
  destruct (moves_only_in_progress (Scenario.instance Scenario.finished) Scenario.p2 2)
    as (_ & _ & Hover & _ & _ & Hterminal).
  destruct (moves_only_in_progress
              (Scenario.instance (GameEngine.initialState 7)) Scenario.p2 2)
    as (_ & _ & Hwait & _ & Hjoin & _).
  split; [exact (Hform eq_refl)|].
  split; [apply Hover; discriminate|].
  split; [apply Hwait; discriminate|].
  split; [apply Hjoin; [reflexivity|apply invariant_initialState; lia]|].
  apply Hterminal. reflexivity.
Defined.

(** ** Rejected moves and game errors *)

Lemma applyMove_broadcasts_committed registry gameID p m registry' snapshot :
  GameEngine.applyMove registry gameID p m
  = (registry', GameEngine.publishStateUpdate gameID snapshot) →
  registry' !! gameID = Some snapshot.
Proof.
  unfold GameEngine.applyMove.
  destruct (registry !! gameID) as [g|]; [|done].
  destruct (GameEngine.validate _ _ _); [|done].
  intros [= <- <-]. apply lookup_insert_eq.
Qed.

(** C4: a rejected move, whatever the kind of the rejection, is discarded:
    the game and the registry of sessions stay as they were, and the
    [gameError] that the client receives sets at most the error message
    and never touches [gameState].  A move of four objects, or of more
    objects than the pile holds, is an [IllegalMove]: against a pile of
    three the pile stays at three. *)
Theorem rejected_move_discarded :
  (∀ st p m kind,
     GameEngine.validate st p m = inr kind →
     GameEngine.act st (GameEngine.Move p m) = st)
  ∧ (∀ (registry registry' : gmap string GameInstance.t) gameID p m kind,
     GameEngine.applyMove registry gameID p m
     = (registry', GameEngine.publishPlayerError gameID p kind) →
     registry' = registry)
  ∧ (∀ user gameError s,
     useGamePage.gameState (useGamePage.handleGameError user gameError s)
     = useGamePage.gameState s
     ∧ useGamePage.joinedGameID (useGamePage.handleGameError user gameError s)
       = useGamePage.joinedGameID s)
  ∧ (∀ st p n,
     NimGameState.status st = IN_PROGRESS →
     GameEngine.seat st (GameEngine.turn st) = Some p →
     (n = 4 ∨ NimGameState.remainingObjects st < n) →
     GameEngine.validate st p (NimMove.mk n) = inr GameEngine.IllegalMove
     ∧ NimGameState.remainingObjects
         (GameEngine.act st (GameEngine.Move p (NimMove.mk n)))
       = NimGameState.remainingObjects st).
Proof.
  split; [|split; [|split]].
  - intros st p m kind Hv. simpl. by rewrite Hv.
  - intros registry registry' gameID p m kind. unfold GameEngine.applyMove.
    destruct (registry !! gameID) as [g|]; [|done].
    destruct (GameEngine.validate _ _ _); [done|].
    by intros [= <-].
  - intros user gameError s. unfold useGamePage.handleGameError.
    by case_bool_decide.
  - intros st p n Hs Hseat Hn.
    assert (Hv : GameEngine.validate st p (NimMove.mk n) = inr GameEngine.IllegalMove).
    { apply validate_illegal; [done|done|].
      unfold GameEngine.legal. simpl.
      destruct Hn as [->|Hlt]; [done|].
      apply andb_false_intro2. apply Z.leb_gt. lia. }
    split; [done|]. simpl. by rewrite Hv.
Qed.

Lemma rejected_move_discarded_witness :
  GameEngine.act Scenario.midgame (GameEngine.Move "p2" (NimMove.mk 1)) = Scenario.midgame
  ∧ (GameEngine.applyMove {[ "g1"%string := Scenario.instance Scenario.midgame ]}
       "g1" "p1" (NimMove.mk 4)).1
    = {[ "g1"%string := Scenario.instance Scenario.midgame ]}
  ∧ GameEngine.validate Scenario.midgame "p1" (NimMove.mk 4) = inr GameEngine.IllegalMove
  ∧ NimGameState.remainingObjects
      (GameEngine.act Scenario.midgame (GameEngine.Move "p1" (NimMove.mk 4)))
    = 3.
Proof.
  destruct rejected_move_discarded as (Hact & Hreg & _ & Hpile).
  split; [exact (Hact Scenario.midgame "p2"%string (NimMove.mk 1)
                   GameEngine.NotYourTurn eq_refl)|].
  split.
  - apply (Hreg _ _ "g1"%string "p1"%string (NimMove.mk 4) GameEngine.IllegalMove).
    reflexivity.
  - exact (Hpile Scenario.midgame "p1"%string 4 eq_refl eq_refl (or_introl eq_refl)).
Defined.

(** C5: a game error reaches only the player who caused it.
    [handleGameError] shows [gameError.error] when [gameError.player] is
    the user's own username, and only then: for every other user the whole
    state, the error message included, is left as it was. *)
Theorem game_error_only_for_acting_player
    (user : User.t) (gameError : GameErrorPayload.t) (s : useGamePage.State) :
  (GameErrorPayload.player gameError = User.username user →
   useGamePage.error (useGamePage.handleGameError user gameError s)
   = Some (GameErrorPayload.error gameError))
  ∧ (GameErrorPayload.player gameError ≠ User.username user →
     useGamePage.handleGameError user gameError s = s).
Proof.
  unfold useGamePage.handleGameError.
  split; intros H; case_bool_decide; done.
Qed.

Lemma game_error_only_for_acting_player_witness :
  useGamePage.error
    (useGamePage.handleGameError Scenario.p1
       (GameEngine.gameErrorPayload "p1" GameEngine.IllegalMove)
       useGamePage.initialState)
  = Some "IllegalMove"%string
  ∧ useGamePage.handleGameError Scenario.p2
      (GameEngine.gameErrorPayload "p1" GameEngine.IllegalMove)
      useGamePage.initialState
    = useGamePage.initialState.
Proof.
  split.
  - apply (proj1 (game_error_only_for_acting_player Scenario.p1
                    (GameEngine.gameErrorPayload "p1" GameEngine.IllegalMove)
                    useGamePage.initialState)).
    reflexivity.
  - apply (proj2 (game_error_only_for_acting_player Scenario.p2
                    (GameEngine.gameErrorPayload "p1" GameEngine.IllegalMove)
                    useGamePage.initialState)).
    discriminate.
Defined.

(** C8: a game update carries the whole game instance, and
    [handleGameUpdate] installs it whatever the client held before: the
    game state becomes the one of the payload and the error is reset, so
    any two subscribers, and every subscriber of a session, hold the same
    game state and no error after the same update. *)
Theorem game_update_converges (updatedState : GameUpdatePayload.t) :
  (∀ s, useGamePage.gameState (useGamePage.handleGameUpdate updatedState s)
        = Some (GameUpdatePayload.gameState updatedState)
        ∧ useGamePage.error (useGamePage.handleGameUpdate updatedState s) = None)
  ∧ (∀ s1 s2,
       useGamePage.gameState (useGamePage.handleGameUpdate updatedState s1)
       = useGamePage.gameState (useGamePage.handleGameUpdate updatedState s2)
       ∧ useGamePage.error (useGamePage.handleGameUpdate updatedState s1)
         = useGamePage.error (useGamePage.handleGameUpdate updatedState s2))
  ∧ (∀ subscribers : list useGamePage.State,
       Forall (λ s, useGamePage.gameState s
                    = Some (GameUpdatePayload.gameState updatedState)
                    ∧ useGamePage.error s = None)
              (useGamePage.handleGameUpdate updatedState <$> subscribers)).
Proof.
  split; [done|]. split; [done|].
  intros subscribers. apply Forall_fmap, Forall_forall. done.
Qed.

(** ** Leaving a game *)

Section LeaveGame.
Import useGamePage.

Lemma truthy_id_Some i id : truthy_id i = Some id → i = Some id ∧ id ≠ EmptyString.
Proof.
  destruct i as [s|]; simpl; [|done].
  case_bool_decide; [done|]. by intros [= <-].
Qed.

Lemma joined_ok_step user s e : joined_ok s → joined_ok (step user s e).
Proof.
  intros Hok. destruct e as [gameID joinGame|p|p]; simpl.
  - unfold joinOnMount.
    destruct (truthy_id gameID) as [id|] eqn:Hid; [|done].
    apply truthy_id_Some in Hid as [_ Hne].
    destruct joinGame as [game|]; simpl; [|done].
    intros id' [= <-]. split; [done|by eexists].
  - intros id Hid. destruct (Hok id Hid) as [Hne _]. split; [done|by eexists].
  - unfold handleGameError. by case_bool_decide.
Qed.

Lemma joined_ok_run user events : joined_ok (run user events).
Proof.
  unfold run.
  assert (Hinit : joined_ok initialState) by done.
  revert Hinit. generalize initialState.
  induction events as [|e events IH]; intros s Hs; simpl; [done|].
  apply IH. by apply joined_ok_step.
Qed.
End LeaveGame.

(** C6: leaving a game that is over does nothing but navigate.  In every
    state the hook can reach with a joined game, [handleLeaveGame] issues
    no leave request and emits no [leaveGame] event when the status of the
    game is ['OVER'], and otherwise issues the leave request first, emits
    the event when the request succeeds (logs the error when it fails),
    and navigates last. *)
Theorem leave_is_noop_when_over
    (user : User.t) (leaveGame : string → string → bool)
    (events : list useGamePage.Event) (id : string) :
  useGamePage.joinedGameID (useGamePage.run user events) = Some id →
  ∃ g, useGamePage.gameState (useGamePage.run user events) = Some g
     ∧ (NimGameState.status (GameInstance.state g) = OVER →
        useGamePage.handleLeaveGame user leaveGame (useGamePage.run user events)
        = [useGamePage.Navigate "/games"])
     ∧ (NimGameState.status (GameInstance.state g) ≠ OVER →
        useGamePage.handleLeaveGame user leaveGame (useGamePage.run user events)
        = useGamePage.LeaveGameRequest id (User.username user)
          :: (if leaveGame id (User.username user)
              then useGamePage.SocketEmit "leaveGame" id
              else useGamePage.ConsoleError "Error leaving game:")
          :: [useGamePage.Navigate "/games"]).
Proof.
  intros Hid.
  destruct (joined_ok_run user events id Hid) as [Hne [g Hg]].
  exists g. split; [done|].
  unfold useGamePage.handleLeaveGame. rewrite Hid, Hg. simpl.
  rewrite bool_decide_eq_false_2 by done.
  split; intros Hs.
  - by rewrite bool_decide_eq_false_2 by (by intros []).
  - rewrite bool_decide_eq_true_2 by done.
    by destruct (leaveGame id (User.username user)).
Qed.

Lemma leave_is_noop_when_over_witness :
  useGamePage.handleLeaveGame Scenario.p1 (λ _ _, true)
    (useGamePage.run Scenario.p1
       [useGamePage.EffectRun (Some "g1"%string)
          (Some (Scenario.instance Scenario.finished))])
  = [useGamePage.Navigate "/games"]
  ∧ useGamePage.handleLeaveGame Scenario.p1 (λ _ _, true)
      (useGamePage.run Scenario.p1
         [useGamePage.EffectRun (Some "g1"%string)
            (Some (Scenario.instance Scenario.started));
          useGamePage.GameUpdate
            (GameUpdatePayload.mk (Scenario.instance Scenario.midgame))])
    = [useGamePage.LeaveGameRequest "g1" "p1";
       useGamePage.SocketEmit "leaveGame" "g1";
       useGamePage.Navigate "/games"].
Proof.
  split.
  - destruct (leave_is_noop_when_over Scenario.p1 (λ _ _, true)
                [useGamePage.EffectRun (Some "g1"%string)
                   (Some (Scenario.instance Scenario.finished))] "g1" eq_refl)
      as (g & Hg & Hover & _).
    change (Some (Scenario.instance Scenario.finished) = Some g) in Hg.
    injection Hg as <-. apply Hover. reflexivity.
  - destruct (leave_is_noop_when_over Scenario.p1 (λ _ _, true)
                [useGamePage.EffectRun (Some "g1"%string)
                   (Some (Scenario.instance Scenario.started));
                 useGamePage.GameUpdate
                   (GameUpdatePayload.mk (Scenario.instance Scenario.midgame))]
                "g1" eq_refl)
      as (g & Hg & _ & Hleave).
    change (Some (Scenario.instance Scenario.midgame) = Some g) in Hg.
    injection Hg as <-. apply Hleave. discriminate.
Defined.

(** ** The payload of a move *)

Section MovePayload.
Import useNimGamePage.

Lemma handleInputChange_cases value move :
  match parseInt value with
  | Some n => if decide (1 <= n <= 3)
              then handleInputChange value move = n
              else handleInputChange value move = move
  | None => handleInputChange value move = move
  end.
Proof.
  unfold handleInputChange. destruct (parseInt value) as [n|]; [|done].
  case_decide as Hn.
  - by rewrite (proj2 (Z.leb_le 1 n)), (proj2 (Z.leb_le n 3)) by lia.
  - destruct (Z.leb_spec 1 n), (Z.leb_spec n 3); simpl; try done. lia.
Qed.

Lemma handleInputChange_range value move :
  1 <= move <= 3 → 1 <= handleInputChange value move <= 3.
Proof.
  intros Hm. pose proof (handleInputChange_cases value move) as H.
  destruct (parseInt value) as [n|]; [|by rewrite H].
  case_decide; by rewrite H.
Qed.

Lemma emitted_range events move :
  1 <= move <= 3 →
  Forall (λ p, 1 <= payloadObjects p <= 3) (emitted events move).
Proof.
  revert move. induction events as [|e events IH]; intros move Hm; simpl.
  - constructor.
  - destruct e as [value|gameState user].
    + apply IH. by apply handleInputChange_range.
    + constructor; [done|]. by apply IH.
Qed.
End MovePayload.

(** C3: every [makeMove] payload of the client carries a number of objects
    that is 1, 2 or 3.  The [move] state starts at 1; [handleInputChange]
    replaces it by the parsed input when that is an integer between 1 and
    3 and leaves it unchanged otherwise; hence, whatever the sequence of
    inputs and clicks, each payload that [handleMakeMove] emits has
    [numObjects] in {1, 2, 3}. *)
Theorem move_payload_in_range :
  useNimGamePage.initialMove = 1
  ∧ (∀ value move,
       match useNimGamePage.parseInt value with
       | Some n => if decide (1 <= n <= 3)
                   then useNimGamePage.handleInputChange value move = n
                   else useNimGamePage.handleInputChange value move = move
       | None => useNimGamePage.handleInputChange value move = move
       end)
  ∧ (∀ events,
       Forall (λ p, useNimGamePage.payloadObjects p = 1
                    ∨ useNimGamePage.payloadObjects p = 2
                    ∨ useNimGamePage.payloadObjects p = 3)
              (useNimGamePage.emitted events useNimGamePage.initialMove)).
Proof.
  split; [done|]. split; [apply handleInputChange_cases|].
  intros events.
  eapply Forall_impl; [apply emitted_range; unfold useNimGamePage.initialMove; lia|].
  simpl. intros p Hp. lia.
Qed.

(** ** The list of chats *)

Section ChatList.
Import useDirectMessage.

Lemma existsb_same_id_app chat prevChats :
  existsb (λ existingChat, same_id existingChat chat) (prevChats ++ [chat]) = true.
Proof.
  rewrite existsb_app. simpl. unfold same_id at 2.
  rewrite bool_decide_eq_true_2 by done. by rewrite orb_true_r.
Qed.

Lemma addCreated_idempotent chat prevChats :
  addCreated chat (addCreated chat prevChats) = addCreated chat prevChats.
Proof.
  unfold addCreated.
  destruct (existsb _ prevChats) eqn:Hex; simpl.
  - by rewrite Hex.
  - by rewrite existsb_same_id_app.
Qed.

Lemma addCreated_present chat prevChats :
  (∃ c, c ∈ prevChats ∧ Chat._id c = Chat._id chat) →
  addCreated chat prevChats = prevChats.
Proof.
  intros (c & Hin & Hid). unfold addCreated.
  replace (existsb _ prevChats) with true; [done|].
  symmetry. apply existsb_exists. exists c.
  split; [by apply list_elem_of_In|]. by apply bool_decide_eq_true_2.
Qed.

Lemma addCreated_absent chat prevChats :
  (∀ c, c ∈ prevChats → Chat._id c ≠ Chat._id chat) →
  addCreated chat prevChats = prevChats ++ [chat].
Proof.
  intros Hall. unfold addCreated.
  destruct (existsb _ prevChats) eqn:Hex; [|done].
  apply existsb_exists in Hex as (c & Hin & Hid).
  apply bool_decide_eq_true in Hid.
  by destruct (Hall c (proj2 (list_elem_of_In _ _) Hin)).
Qed.
End ChatList.

(** C9: handling a ['created'] chat update is idempotent on the list of
    chats.  When a chat with the same [_id] is in the list the list is
    returned as it is, otherwise the chat is appended, once; handling the
    same update a second time changes nothing, and the selected chat is
    never touched. *)
Theorem created_update_idempotent
    (chatUpdate : ChatUpdatePayload.t) (s : useDirectMessage.State) :
  ChatUpdatePayload.type chatUpdate = "created"%string →
  ∃ s1, useDirectMessage.handleChatUpdate chatUpdate s = Some s1
      ∧ useDirectMessage.handleChatUpdate chatUpdate s1 = Some s1
      ∧ useDirectMessage.selectedChat s1 = useDirectMessage.selectedChat s
      ∧ ((∃ c, c ∈ useDirectMessage.chats s
               ∧ Chat._id c = Chat._id (ChatUpdatePayload.chat chatUpdate)) →
         useDirectMessage.chats s1 = useDirectMessage.chats s)
      ∧ ((∀ c, c ∈ useDirectMessage.chats s →
               Chat._id c ≠ Chat._id (ChatUpdatePayload.chat chatUpdate)) →
         useDirectMessage.chats s1
         = useDirectMessage.chats s ++ [ChatUpdatePayload.chat chatUpdate]).
Proof.
  intros Htype. unfold useDirectMessage.handleChatUpdate. rewrite Htype.
  rewrite bool_decide_eq_true_2 by done.
  eexists. split; [done|]. simpl.
  rewrite addCreated_idempotent.
  split; [done|]. split; [done|].
  split; [apply addCreated_present|apply addCreated_absent].
Qed.

Lemma created_update_idempotent_witness :
  ∃ s1, useDirectMessage.handleChatUpdate Scenario.created Scenario.noChats = Some s1
      ∧ useDirectMessage.handleChatUpdate Scenario.created s1 = Some s1
      ∧ useDirectMessage.selectedChat s1 = None
      ∧ ((∃ c, c ∈ [] ∧ Chat._id c = Some "c1"%string) →
         useDirectMessage.chats s1 = [])
      ∧ ((∀ c : Chat.t, c ∈ [] → Chat._id c ≠ Some "c1"%string) →
         useDirectMessage.chats s1 = [Scenario.chat]).
Proof.
  apply (created_update_idempotent Scenario.created Scenario.noChats).
  reflexivity.
Defined.

(** ** The chat service *)

Section ChatServiceResults.

Lemma isArray_true v : isArray v = true → ∃ items, v = JArray items.
Proof. destruct v; try done. by eexists. Qed.

Lemma populate_resolves_array find p :
  ∃ items, ChatServicePopulate.getChatsByParticipants find p = Resolves (JArray items).
Proof.
  unfold ChatServicePopulate.getChatsByParticipants.
  destruct (find p) as [v|r]; simpl; [|by eexists].
  destruct (isArray v) eqn:Hv; [|by eexists].
  apply isArray_true in Hv as [items ->]. by eexists.
Qed.

Lemma service_resolves_array env p :
  ∃ items, ChatService.getChatsByParticipants env p = Resolves (JArray items).
Proof.
  unfold ChatService.getChatsByParticipants.
  destruct (truthy (ChatService.mockFind env)).
  - destruct (isError (ChatService.mockFind env)); simpl; [by eexists|].
    destruct (isArray (ChatService.mockFind env)) eqn:Hv; [|by eexists].
    apply isArray_true in Hv as [items ->]. by eexists.
  - destruct (ChatService.ChatModel_find env p) as [v|r]; simpl; [|by eexists].
    destruct (isArray v) eqn:Hv; [|by eexists].
    apply isArray_true in Hv as [items ->]. by eexists.
Qed.
End ChatServiceResults.

(** C10: for every array of participants, [getChatsByParticipants]
    resolves to an array; it never rejects and never resolves to an error
    value.  When the query throws, or returns something that is not an
    array, the result is the empty array, and an array that the query
    returns is passed on.  This holds of both versions of the service; in
    the one that consults the registry of [mockingoose] the query is run
    when no [find] mock is registered. *)
Theorem getChatsByParticipants_resolves_to_array :
  (∀ find p,
     ∃ items, ChatServicePopulate.getChatsByParticipants find p = Resolves (JArray items))
  ∧ (∀ find p,
     failed_or_not_array (find p) →
     ChatServicePopulate.getChatsByParticipants find p = Resolves (JArray []))
  ∧ (∀ find p items,
     find p = Returns (JArray items) →
     ChatServicePopulate.getChatsByParticipants find p = Resolves (JArray items))
  ∧ (∀ env p,
     ∃ items, ChatService.getChatsByParticipants env p = Resolves (JArray items))
  ∧ (∀ env p,
     truthy (ChatService.mockFind env) = false →
     failed_or_not_array (ChatService.ChatModel_find env p) →
     ChatService.getChatsByParticipants env p = Resolves (JArray []))
  ∧ (∀ env p items,
     truthy (ChatService.mockFind env) = false →
     ChatService.ChatModel_find env p = Returns (JArray items) →
     ChatService.getChatsByParticipants env p = Resolves (JArray items)).
Proof.
  split; [apply populate_resolves_array|].
  split; [|split; [|split; [apply service_resolves_array|split]]].
  - intros find p [[r Hr]|(v & Hv & Harr)];
      unfold ChatServicePopulate.getChatsByParticipants; rewrite ?Hr, ?Hv; simpl; [done|].
    by rewrite Harr.
  - intros find p items Hq.
    unfold ChatServicePopulate.getChatsByParticipants. by rewrite Hq.
  - intros env p Hmock [[r Hr]|(v & Hv & Harr)];
      unfold ChatService.getChatsByParticipants; rewrite Hmock, ?Hr, ?Hv; simpl; [done|].
    by rewrite Harr.
  - intros env p items Hmock Hq.
    unfold ChatService.getChatsByParticipants. by rewrite Hmock, Hq.
Qed.

Lemma getChatsByParticipants_resolves_to_array_witness :
  ChatServicePopulate.getChatsByParticipants (λ _, Returns (JObject Scenario.chat)) ["p1"%string]
  = Resolves (JArray [])
  ∧ ChatServicePopulate.getChatsByParticipants
      (λ _, Returns (JArray [JObject Scenario.chat])) ["p1"%string]
    = Resolves (JArray [JObject Scenario.chat])
  ∧ ChatService.getChatsByParticipants Scenario.failingServer ["p1"%string]
    = Resolves (JArray [])
  ∧ ChatService.getChatsByParticipants
      {| ChatService.require_mockingoose := Some {| ChatService.__mocks := None |};
         ChatService.modelName := "Chat";
         ChatService.ChatModel_find := λ _, Returns (JArray [JObject Scenario.chat]) |}
      ["p1"%string]
    = Resolves (JArray [JObject Scenario.chat]).
Proof.
  destruct getChatsByParticipants_resolves_to_array
    as (_ & Hempty & Hpass & _ & Hempty' & Hpass').
  split; [apply Hempty; right; by eexists|].
  split; [by apply Hpass|].
  split; [apply Hempty'; [reflexivity|left; by eexists]|].
  by apply Hpass'.
Defined.

(** With a single document registered as the [find] mock, the version
    that consults the registry wraps it into an array without running the
    query. *)
Example mocked_find_is_wrapped :
  ChatService.getChatsByParticipants Scenario.mockedServer ["p1"%string]
  = Resolves (JArray [JObject Scenario.chat]).
Proof. reflexivity. Qed.

(** ** Signing in and signing up *)

(** Membership in an explicit list of effects, as a hypothesis or as the
    goal. *)
Ltac in_effects H :=
  apply list_elem_of_In in H; simpl in H;
  intuition (subst; try discriminate; try congruence; auto).

Ltac effect_listed := apply list_elem_of_In; simpl; auto 10.

Section Auth.
Import useAuth.


Lemma validateInputs_true authType s s1 :
  validateInputs authType s = (s1, true) →
  JsString.truthy (JsString.trim (username s)) = true
  ∧ JsString.truthy (JsString.trim (password s)) = true
  ∧ (authType = signup →
     JsString.truthy (JsString.trim (passwordConfirmation s)) = true
     ∧ password s = passwordConfirmation s)
  ∧ s1 = setErr EmptyString s.
Proof.
  unfold validateInputs.
  destruct (JsString.truthy (JsString.trim (username s))); simpl; [|done].
  destruct (JsString.truthy (JsString.trim (password s))); simpl; [|done].
  case_bool_decide as Ht.
  - destruct (JsString.truthy (JsString.trim (passwordConfirmation s))); simpl; [|done].
    case_bool_decide as Heq; simpl; [|done].
    by intros [= <-].
  - intros [= <-]. by repeat split.
Qed.

End Auth.

(** X1: the form reaches the user service only when it is valid.  If
    [handleSubmit] sends a login or sign-up request, then the user name and
    the password are not blank, for a sign-up the confirmation is not
    blank and equals the password, the request is the one of the page
    (login or sign-up), and it carries the user name and the password
    exactly as they were typed, untrimmed. *)
Theorem submit_sends_only_valid_credentials
    (authType : useAuth.AuthType)
    (loginUser createUser : UserCredentials.t → User.t + option string)
    (s : useAuth.State) (creds : UserCredentials.t) :
  useAuth.LoginUser creds ∈ (useAuth.handleSubmit authType loginUser createUser s).2
  ∨ useAuth.CreateUser creds ∈ (useAuth.handleSubmit authType loginUser createUser s).2 →
  JsString.truthy (JsString.trim (useAuth.username s)) = true
  ∧ JsString.truthy (JsString.trim (useAuth.password s)) = true
  ∧ (authType = useAuth.signup →
     JsString.truthy (JsString.trim (useAuth.passwordConfirmation s)) = true
     ∧ useAuth.password s = useAuth.passwordConfirmation s)
  ∧ creds = {| UserCredentials.username := useAuth.username s;
               UserCredentials.password := useAuth.password s |}
  ∧ (useAuth.LoginUser creds
       ∈ (useAuth.handleSubmit authType loginUser createUser s).2 →
     authType = useAuth.login)
  ∧ (useAuth.CreateUser creds
       ∈ (useAuth.handleSubmit authType loginUser createUser s).2 →
     authType = useAuth.signup).
Proof.
  unfold useAuth.handleSubmit.
  destruct (useAuth.validateInputs authType s) as [s1 valid] eqn:Hv.
  destruct valid; simpl.
  - destruct (validateInputs_true _ _ _ Hv) as (Hu & Hp & Hc & _).
    intros Hin. split; [done|]. split; [done|]. split; [done|].
    destruct authType; simpl in *.
    + destruct (loginUser _); simpl in *;
        (destruct Hin as [Hin|Hin]; in_effects Hin; try in_effects H).
    + destruct (createUser _); simpl in *;
        (destruct Hin as [Hin|Hin]; in_effects Hin; try in_effects H).
  - intros [Hin|Hin]; in_effects Hin.
Qed.

Lemma submit_sends_only_valid_credentials_witness :
  JsString.truthy (JsString.trim (useAuth.username AuthScenario.filled)) = true
  ∧ JsString.truthy (JsString.trim (useAuth.password AuthScenario.filled)) = true
  ∧ (useAuth.signup = useAuth.signup →
     JsString.truthy
       (JsString.trim (useAuth.passwordConfirmation AuthScenario.filled)) = true
     ∧ useAuth.password AuthScenario.filled
       = useAuth.passwordConfirmation AuthScenario.filled)
  ∧ {| UserCredentials.username := useNimGamePage.code_units " bob ";
       UserCredentials.password := useNimGamePage.code_units "secret" |}
    = {| UserCredentials.username := useAuth.username AuthScenario.filled;
         UserCredentials.password := useAuth.password AuthScenario.filled |}
  ∧ (useAuth.LoginUser
       {| UserCredentials.username := useNimGamePage.code_units " bob ";
          UserCredentials.password := useNimGamePage.code_units "secret" |}
       ∈ (useAuth.handleSubmit useAuth.signup AuthScenario.accept
            AuthScenario.accept AuthScenario.filled).2 →
     useAuth.signup = useAuth.login)
  ∧ (useAuth.CreateUser
       {| UserCredentials.username := useNimGamePage.code_units " bob ";
          UserCredentials.password := useNimGamePage.code_units "secret" |}
       ∈ (useAuth.handleSubmit useAuth.signup AuthScenario.accept
            AuthScenario.accept AuthScenario.filled).2 →
     useAuth.signup = useAuth.signup).
Proof.
  apply (submit_sends_only_valid_credentials useAuth.signup AuthScenario.accept
           AuthScenario.accept AuthScenario.filled).
  right. apply list_elem_of_In. vm_compute. right. left. reflexivity.
Defined.


(** ** Trimmed text *)

Section Trim.
Import useNimGamePage JsString.

Lemma trimStart_split s :
  ∃ ws, s = ws ++ trimStart s ∧ Forall (λ c, isStrWhiteSpaceChar c = true) ws.
Proof.
  induction s as [|c s (ws & Hs & Hws)]; simpl.
  - by exists [].
  - destruct (isStrWhiteSpaceChar c) eqn:Hc.
    + exists (c :: ws). split; [by rewrite Hs at 1|by constructor].
    + by exists [].
Qed.

Lemma trimStart_head s c r : trimStart s = c :: r → isStrWhiteSpaceChar c = false.
Proof.
  induction s as [|d s IH]; simpl; [done|].
  destruct (isStrWhiteSpaceChar d) eqn:Hd; [done|].
  by intros [= <- _].
Qed.

Lemma trimEnd_split t :
  ∃ ws, t = trimEnd t ++ ws ∧ Forall (λ c, isStrWhiteSpaceChar c = true) ws.
Proof.
  unfold trimEnd. destruct (trimStart_split (rev t)) as (ws & Hs & Hws).
  exists (rev ws). split.
  - rewrite <- rev_app_distr, <- Hs. by rewrite rev_involutive.
  - apply Forall_forall. intros c Hc.
    apply list_elem_of_In, in_rev, list_elem_of_In in Hc.
    by apply (proj1 (Forall_forall _ _) Hws).
Qed.

Lemma trimEnd_last t c : last (trimEnd t) = Some c → isStrWhiteSpaceChar c = false.
Proof.
  unfold trimEnd. destruct (trimStart (rev t)) as [|d r] eqn:Ht; [done|].
  simpl. rewrite last_snoc. intros [= <-]. by eapply trimStart_head.
Qed.

(** A trimmed string neither starts nor ends with white space. *)
Lemma trim_head s c r : trim s = c :: r → isStrWhiteSpaceChar c = false.
Proof.
  unfold trim. intros Ht.
  destruct (trimEnd_split (trimStart s)) as (ws & Hs & _).
  rewrite Ht in Hs. simpl in Hs. by eapply trimStart_head.
Qed.

Lemma trim_last s c : last (trim s) = Some c → isStrWhiteSpaceChar c = false.
Proof. apply trimEnd_last. Qed.
End Trim.

(** ** Sending messages and selecting chats *)

(** X3: no blank message is sent, and none without a chat.  When
    [handleSendMessage] issues the request, a chat is selected, the request
    names its non-empty [_id], and the message is the trimmed draft: it is
    not empty, neither starts nor ends with white space, and is signed with
    the user's name and the current date. *)
Theorem send_message_only_trimmed_to_selected_chat
    (user : User.t) (now : Z) (sendMessage : MessageToSend.t → string → bool)
    (s : DirectMessageHook.State) (message : MessageToSend.t) (chatID : string) :
  DirectMessageHook.SendMessage message chatID
    ∈ (DirectMessageHook.handleSendMessage user now sendMessage s).2 →
  (∃ chat, DirectMessageHook.selectedChat s = Some chat ∧ Chat._id chat = Some chatID)
  ∧ chatID ≠ EmptyString
  ∧ MessageToSend.msg message = JsString.trim (DirectMessageHook.newMessage s)
  ∧ MessageToSend.msg message ≠ []
  ∧ (∀ c, head (MessageToSend.msg message) = Some c ∨ last (MessageToSend.msg message) = Some c →
          useNimGamePage.isStrWhiteSpaceChar c = false)
  ∧ MessageToSend.msgFrom message = User.username user
  ∧ MessageToSend.msgDateTime message = now.
Proof.
  unfold DirectMessageHook.handleSendMessage.
  destruct (JsString.truthy _) eqn:Htrim; [|intros H; in_effects H].
  destruct (DirectMessageHook.selectedChatId s) as [id|] eqn:Hid; [|intros H; in_effects H].
  intros Hin.
  assert (Hm : message = {| MessageToSend.msg := JsString.trim (DirectMessageHook.newMessage s);
                            MessageToSend.msgFrom := User.username user;
                            MessageToSend.msgDateTime := now |} ∧ chatID = id).
  { destruct (sendMessage _ id); in_effects Hin. }
  destruct Hm as [-> ->]. simpl.
  unfold DirectMessageHook.selectedChatId in Hid.
  apply truthy_id_Some in Hid as [Hid Hne].
  destruct (DirectMessageHook.selectedChat s) as [chat|] eqn:Hsel; [|done].
  split; [by exists chat|]. split; [done|]. split; [done|].
  split; [by destruct (JsString.trim _)|].
  split; [|done].
  intros c [Hc|Hc].
  - apply head_Some in Hc as [r Hc]. by eapply trim_head.
  - by eapply trim_last.
Qed.

Lemma send_message_only_trimmed_to_selected_chat_witness :
  (∃ chat, DirectMessageHook.selectedChat ChatScenario.writing = Some chat
           ∧ Chat._id chat = Some "c1"%string)
  ∧ "c1"%string ≠ EmptyString
  ∧ useNimGamePage.code_units "hello there"
    = JsString.trim (DirectMessageHook.newMessage ChatScenario.writing)
  ∧ useNimGamePage.code_units "hello there" ≠ []
  ∧ (∀ c, head (useNimGamePage.code_units "hello there") = Some c
          ∨ last (useNimGamePage.code_units "hello there") = Some c →
          useNimGamePage.isStrWhiteSpaceChar c = false)
  ∧ "p1"%string = User.username Scenario.p1
  ∧ 42 = 42.
Proof.
  apply (send_message_only_trimmed_to_selected_chat Scenario.p1 42 (λ _ _, true)
           ChatScenario.writing
           {| MessageToSend.msg := useNimGamePage.code_units "hello there";
              MessageToSend.msgFrom := "p1";
              MessageToSend.msgDateTime := 42 |} "c1").
  apply list_elem_of_In. vm_compute. right. left. reflexivity.
Defined.

(** X4: the draft survives a failed send.  [handleSendMessage] empties the
    draft exactly when the request was issued and succeeded; when it was
    not issued, or failed (which is logged), the draft is as it was.  The
    selected chat, the chats and the panel are never touched. *)
Theorem send_message_clears_draft_only_on_success
    (user : User.t) (now : Z) (sendMessage : MessageToSend.t → string → bool)
    (s : DirectMessageHook.State) :
  let r := DirectMessageHook.handleSendMessage user now sendMessage s in
  DirectMessageHook.lists r.1 = DirectMessageHook.lists s
  ∧ DirectMessageHook.showCreatePanel r.1 = DirectMessageHook.showCreatePanel s
  ∧ DirectMessageHook.chatToCreate r.1 = DirectMessageHook.chatToCreate s
  ∧ ((∃ message chatID,
        DirectMessageHook.SendMessage message chatID ∈ r.2
        ∧ sendMessage message chatID = true
        ∧ DirectMessageHook.newMessage r.1 = [])
     ∨ (r.1 = s
        ∧ ∀ message chatID,
            DirectMessageHook.SendMessage message chatID ∈ r.2 →
            sendMessage message chatID = false
            ∧ last r.2 = Some (DirectMessageHook.ConsoleError "Error sending message:"))).
Proof.
  intros r. subst r. unfold DirectMessageHook.handleSendMessage.
  destruct (JsString.truthy _);
    [|repeat split; try done; right; split; [done|intros ?? H; in_effects H]].
  destruct (DirectMessageHook.selectedChatId s) as [id|];
    [|repeat split; try done; right; split; [done|intros ?? H; in_effects H]].
  destruct (sendMessage _ id) eqn:Hsend; simpl.
  - repeat split; try done. left. do 2 eexists. split; [effect_listed|done].
  - repeat split; try done. right. split; [done|].
    intros message chatID H. split; [|done].
    assert (message = {| MessageToSend.msg := JsString.trim (DirectMessageHook.newMessage s);
                         MessageToSend.msgFrom := User.username user;
                         MessageToSend.msgDateTime := now |} ∧ chatID = id) as [-> ->];
      [in_effects H|done].
Qed.

(** X5: a chat room is joined only for a chat that was fetched.  When
    [handleChatSelect] emits [joinChat], the chat identifier is the
    requested, non-empty one, the request for the chat succeeded, and the
    fetched chat is now the selected one; when the identifier is missing
    or the request fails, the state is unchanged and nothing is joined. *)
Theorem chat_select_joins_only_fetched_chat
    (chatID : option string) (getChatById : string → option Chat.t)
    (s : DirectMessageHook.State) :
  let r := DirectMessageHook.handleChatSelect chatID getChatById s in
  (∀ event id, DirectMessageHook.SocketEmit event id ∈ r.2 →
     event = "joinChat"%string ∧ chatID = Some id ∧ id ≠ EmptyString
     ∧ ∃ chatData, getChatById id = Some chatData
                   ∧ DirectMessageHook.selectedChat r.1 = Some chatData
                   ∧ DirectMessageHook.chats r.1 = DirectMessageHook.chats s)
  ∧ ((∀ event id, DirectMessageHook.SocketEmit event id ∉ r.2) → r.1 = s).
Proof.
  intros r. subst r. unfold DirectMessageHook.handleChatSelect.
  destruct (useGamePage.truthy_id chatID) as [id|] eqn:Hid.
  - apply truthy_id_Some in Hid as [-> Hne].
    destruct (getChatById id) as [chatData|] eqn:Hget; simpl.
    + split.
      * intros event id' H.
        assert (event = "joinChat"%string ∧ id' = id) as [-> ->] by in_effects H.
        repeat split; try done. by exists chatData.
      * intros Hno. destruct (Hno "joinChat"%string id). effect_listed.
    + split; [intros ?? H; in_effects H|done].
  - split; [intros ?? H; in_effects H|done].
Qed.

Lemma chat_select_joins_only_fetched_chat_witness :
  "joinChat"%string = "joinChat"%string ∧ Some "c1"%string = Some "c1"%string
  ∧ "c1"%string ≠ EmptyString
  ∧ ∃ chatData,
      Some ChatScenario.answered = Some chatData
      ∧ DirectMessageHook.selectedChat
          (DirectMessageHook.handleChatSelect (Some "c1"%string)
             (λ _, Some ChatScenario.answered) ChatScenario.writing).1
        = Some chatData
      ∧ DirectMessageHook.chats
          (DirectMessageHook.handleChatSelect (Some "c1"%string)
             (λ _, Some ChatScenario.answered) ChatScenario.writing).1
        = DirectMessageHook.chats ChatScenario.writing.
Proof.
  apply (proj1 (chat_select_joins_only_fetched_chat (Some "c1"%string)
                  (λ _, Some ChatScenario.answered) ChatScenario.writing)
           "joinChat"%string "c1"%string).
  apply list_elem_of_In. vm_compute. right. left. reflexivity.
Defined.

(** ** Chat updates *)

Section ChatUpdates.
Import useDirectMessage.




End ChatUpdates.





(** X8: the order of the response and of the announcement of a new chat
    matters.  Let [handleCreateChat] succeed with a chat whose [_id] no
    chat of the list has.  When the response is handled first and the
    ['created'] update of the same chat afterwards, the chat is in the
    list once; when the update is handled first, [handleCreateChat]
    appends the chat again and the list ends with two copies of it. *)
Theorem create_chat_response_and_update_order
    (user : User.t) (createChat : list string → option Chat.t)
    (s : DirectMessageHook.State) (newChat : Chat.t) :
  DirectMessageHook.chatToCreate s ≠ EmptyString →
  is_Some (useGamePage.truthy_id (User._id user)) →
  createChat [User.username user; DirectMessageHook.chatToCreate s] = Some newChat →
  (∀ c, c ∈ DirectMessageHook.chats s → Chat._id c ≠ Chat._id newChat) →
  let created := {| ChatUpdatePayload.chat := newChat;
                    ChatUpdatePayload.type := "created" |} in
  (∃ s2, DirectMessageHook.onChatUpdate created
           (DirectMessageHook.handleCreateChat user createChat s).1 = Some s2
         ∧ DirectMessageHook.chats s2 = DirectMessageHook.chats s ++ [newChat])
  ∧ (∃ s1, DirectMessageHook.onChatUpdate created s = Some s1
           ∧ DirectMessageHook.chats
               (DirectMessageHook.handleCreateChat user createChat s1).1
             = DirectMessageHook.chats s ++ [newChat; newChat]).
Proof.
  intros Hto [uid Huid] Hcreate Hfresh created. split.
  - unfold DirectMessageHook.handleCreateChat.
    rewrite bool_decide_eq_false_2 by done. rewrite Huid, Hcreate.
    unfold DirectMessageHook.onChatUpdate, useDirectMessage.handleChatUpdate. simpl.
    eexists. split; [done|]. unfold DirectMessageHook.chats. simpl.
    apply addCreated_present. exists newChat. split; [|done].
    apply elem_of_app. right. by apply list_elem_of_singleton.
  - unfold DirectMessageHook.onChatUpdate, useDirectMessage.handleChatUpdate. simpl.
    eexists. split; [done|].
    unfold DirectMessageHook.handleCreateChat. simpl.
    rewrite bool_decide_eq_false_2 by done. rewrite Huid, Hcreate.
    unfold DirectMessageHook.chats. simpl.
    rewrite addCreated_absent by done. by rewrite <- app_assoc.
Qed.

Lemma create_chat_response_and_update_order_witness :
  (∃ s2, DirectMessageHook.onChatUpdate Scenario.created
           (DirectMessageHook.handleCreateChat Scenario.p1 (λ _, Some Scenario.chat)
              ChatScenario.picking).1 = Some s2
         ∧ DirectMessageHook.chats s2 = [] ++ [Scenario.chat])
  ∧ (∃ s1, DirectMessageHook.onChatUpdate Scenario.created ChatScenario.picking = Some s1
           ∧ DirectMessageHook.chats
               (DirectMessageHook.handleCreateChat Scenario.p1 (λ _, Some Scenario.chat) s1).1
             = [] ++ [Scenario.chat; Scenario.chat]).
Proof.
  apply (create_chat_response_and_update_order Scenario.p1 (λ _, Some Scenario.chat)
           ChatScenario.picking Scenario.chat).
  - discriminate.
  - by eexists.
  - reflexivity.
  - intros c Hc. by apply elem_of_nil in Hc.
Defined.

(** ** Who can submit a move, and what is submitted *)

Section Submitting.
Import useNimGamePage MoveInput.

Lemma emitted_app pre post move :
  emitted (pre ++ post) move = emitted pre move ++ emitted post (moveAfter pre move).
Proof.
  revert move. induction pre as [|e pre IH]; intros move; simpl; [done|].
  destruct e as [value|g u]; [apply IH|]. by rewrite IH.
Qed.

Lemma getCurrentPlayer_is_seat g p :
  NimGamePage.getCurrentPlayer g = Some p →
  NimGameState.player1 (GameInstance.state g) = Some p
  ∨ NimGameState.player2 (GameInstance.state g) = Some p.
Proof.
  unfold NimGamePage.getCurrentPlayer.
  destruct (NimGameState.moves _) as [ms|]; [|by left].
  destruct (0 <? length ms)%nat; [|by left].
  destruct (length ms mod 2 =? 0)%nat; [by left|by right].
Qed.

Lemma canSubmit_turn g user move :
  canSubmit g user move →
  NimGameState.status (GameInstance.state g) = IN_PROGRESS
  ∧ NimGamePage.getCurrentPlayer g = Some (User.username user).
Proof.
  intros (form & Hform & Hdis). unfold NimGamePage.render in Hform. simpl in Hform.
  case_bool_decide as Hs; [|done].
  injection Hform as <-. simpl in Hdis.
  apply negb_false_iff, bool_decide_eq_true in Hdis. done.
Qed.
End Submitting.

(** X9: only the player to move can submit.  When the page of a user shows
    an enabled submit button, the game is in progress, the user sits in
    one of the two seats and is the current player, and the page of no
    user with another name has the button enabled: a spectator, or the
    player who is not to move, cannot submit. *)
Theorem only_the_player_to_move_can_submit
    (gameState : GameInstance.t) (user : User.t) (move : Z) :
  MoveInput.canSubmit gameState user move →
  NimGameState.status (GameInstance.state gameState) = IN_PROGRESS
  ∧ NimGamePage.getCurrentPlayer gameState = Some (User.username user)
  ∧ (NimGameState.player1 (GameInstance.state gameState) = Some (User.username user)
     ∨ NimGameState.player2 (GameInstance.state gameState) = Some (User.username user))
  ∧ ∀ other move', MoveInput.canSubmit gameState other move' →
                   User.username other = User.username user.
Proof.
  intros Hcan. destruct (canSubmit_turn _ _ _ Hcan) as [Hs Hturn].
  split; [done|]. split; [done|].
  split; [by apply getCurrentPlayer_is_seat|].
  intros other move' Hother.
  destruct (canSubmit_turn _ _ _ Hother) as [_ Hturn']. congruence.
Qed.

Lemma only_the_player_to_move_can_submit_witness :
  NimGameState.status (GameInstance.state (Scenario.instance Scenario.midgame)) = IN_PROGRESS
  ∧ NimGamePage.getCurrentPlayer (Scenario.instance Scenario.midgame)
    = Some (User.username Scenario.p1)
  ∧ (NimGameState.player1 (GameInstance.state (Scenario.instance Scenario.midgame))
     = Some (User.username Scenario.p1)
     ∨ NimGameState.player2 (GameInstance.state (Scenario.instance Scenario.midgame))
       = Some (User.username Scenario.p1))
  ∧ ∀ other move', MoveInput.canSubmit (Scenario.instance Scenario.midgame) other move' →
                   User.username other = User.username Scenario.p1.
Proof.
  apply (only_the_player_to_move_can_submit (Scenario.instance Scenario.midgame)
           Scenario.p1 2).
  eexists. split; reflexivity.
Defined.

(** X10: a click submits the last valid input.  If the input typed just
    before a click parses to an integer between 1 and 3, the payload of
    the click carries that number, whatever was typed earlier; and an
    input that does not parse to such an integer can be dropped from the
    sequence of events without changing any payload. *)
Theorem click_submits_last_valid_input
    (pre post : list useNimGamePage.Event) (value : list N)
    (gameState : GameInstance.t) (user : User.t) (move : Z) :
  (∀ n, useNimGamePage.parseInt value = Some n → 1 <= n <= 3 →
        useNimGamePage.emitted
          (pre ++ [useNimGamePage.InputChange value;
                   useNimGamePage.SubmitClick gameState user]) move
        = useNimGamePage.emitted pre move
          ++ [useNimGamePage.handleMakeMove gameState user n])
  ∧ ((∀ n, useNimGamePage.parseInt value = Some n → ¬ (1 <= n <= 3)) →
     useNimGamePage.emitted (pre ++ useNimGamePage.InputChange value :: post) move
     = useNimGamePage.emitted (pre ++ post) move).
Proof.
  split.
  - intros n Hn Hr. rewrite emitted_app. simpl. do 3 f_equal.
    pose proof (handleInputChange_cases value (MoveInput.moveAfter pre move)) as H.
    rewrite Hn in H. by rewrite decide_True in H.
  - intros Hbad. rewrite !emitted_app. simpl. do 2 f_equal.
    pose proof (handleInputChange_cases value (MoveInput.moveAfter pre move)) as H.
    destruct (useNimGamePage.parseInt value) as [n|]; [|done].
    by rewrite decide_False in H by (by apply Hbad).
Qed.

Lemma click_submits_last_valid_input_witness :
  useNimGamePage.emitted
    ([useNimGamePage.InputChange (useNimGamePage.code_units "3")]
     ++ [useNimGamePage.InputChange (useNimGamePage.code_units "2");
         useNimGamePage.SubmitClick (Scenario.instance Scenario.midgame) Scenario.p1]) 1
  = useNimGamePage.emitted
      [useNimGamePage.InputChange (useNimGamePage.code_units "3")] 1
    ++ [useNimGamePage.handleMakeMove (Scenario.instance Scenario.midgame) Scenario.p1 2]
  ∧ useNimGamePage.emitted
      ([useNimGamePage.InputChange (useNimGamePage.code_units "3")]
       ++ useNimGamePage.InputChange (useNimGamePage.code_units "9")
          :: [useNimGamePage.SubmitClick (Scenario.instance Scenario.midgame) Scenario.p1]) 1
    = useNimGamePage.emitted
        ([useNimGamePage.InputChange (useNimGamePage.code_units "3")]
         ++ [useNimGamePage.SubmitClick (Scenario.instance Scenario.midgame) Scenario.p1]) 1.
Proof.
  split.
  - apply (proj1 (click_submits_last_valid_input
                    [useNimGamePage.InputChange (useNimGamePage.code_units "3")] []
                    (useNimGamePage.code_units "2")
                    (Scenario.instance Scenario.midgame) Scenario.p1 1) 2);
      [reflexivity|lia].
  - apply (proj2 (click_submits_last_valid_input
                    [useNimGamePage.InputChange (useNimGamePage.code_units "3")]
                    [useNimGamePage.SubmitClick (Scenario.instance Scenario.midgame)
                       Scenario.p1]
                    (useNimGamePage.code_units "9")
                    (Scenario.instance Scenario.midgame) Scenario.p1 1)).
    intros n Hn. vm_compute in Hn. injection Hn as <-. lia.
Defined.

(** ** Joining and leaving, in any state *)

(** X11: leaving always ends on the list of games, and asks the server
    only for a live game.  In every state [handleLeaveGame] navigates to
    [/games] exactly once, as its last effect.  A leave request is issued
    only for a joined game with a non-empty identifier whose held state is
    not over, and in the user's own name; the [leaveGame] event is emitted
    only after such a request has succeeded. *)
Theorem leave_always_navigates_once
    (user : User.t) (leaveGame : string → string → bool) (s : useGamePage.State) :
  let effects := useGamePage.handleLeaveGame user leaveGame s in
  (∃ before, effects = before ++ [useGamePage.Navigate "/games"]
             ∧ ∀ path, useGamePage.Navigate path ∉ before)
  ∧ (∀ id name, useGamePage.LeaveGameRequest id name ∈ effects →
       useGamePage.joinedGameID s = Some id ∧ id ≠ EmptyString
       ∧ name = User.username user
       ∧ ∃ g, useGamePage.gameState s = Some g
              ∧ NimGameState.status (GameInstance.state g) ≠ OVER)
  ∧ (∀ event id, useGamePage.SocketEmit event id ∈ effects →
       event = "leaveGame"%string
       ∧ useGamePage.LeaveGameRequest id (User.username user) ∈ effects
       ∧ leaveGame id (User.username user) = true).
Proof.
  intros effects. subst effects. unfold useGamePage.handleLeaveGame.
  destruct (useGamePage.truthy_id (useGamePage.joinedGameID s)) as [id|] eqn:Hid.
  2: { split; [exists []; split; [done|intros p H; in_effects H]|].
       split; intros ?? H; in_effects H. }
  apply truthy_id_Some in Hid as [Hid Hne].
  destruct (useGamePage.gameState s) as [g|] eqn:Hg.
  2: { split; [exists []; split; [done|intros p H; in_effects H]|].
       split; intros ?? H; in_effects H. }
  case_bool_decide as Hs.
  2: { split; [exists []; split; [done|intros p H; in_effects H]|].
       split; intros ?? H; in_effects H. }
  destruct (leaveGame id (User.username user)) eqn:Hleave; simpl.
  - split; [eexists [_; _]; split; [done|intros p H; in_effects H]|].
    split.
    + intros id' name H.
      assert (id' = id ∧ name = User.username user) as [-> ->] by in_effects H.
      repeat split; try done. by exists g.
    + intros event id' H.
      assert (event = "leaveGame"%string ∧ id' = id) as [-> ->] by in_effects H.
      split; [done|]. split; [effect_listed|done].
  - split; [eexists [_; _]; split; [done|intros p H; in_effects H]|].
    split.
    + intros id' name H.
      assert (id' = id ∧ name = User.username user) as [-> ->] by in_effects H.
      repeat split; try done. by exists g.
    + intros event id' H. in_effects H.
Qed.

(** X12: a game room is joined only after the join request succeeded.
    When the effect of [useGamePage] emits [joinGame], the route has a
    non-empty game identifier, the request returned a game, and the hook
    then holds that game under that identifier with no error; when
    nothing is emitted, because the identifier is missing or the request
    failed, the game state and the joined identifier are as before. *)
Theorem join_emits_only_after_success
    (user : User.t) (gameID : option string) (joinGame : option GameInstance.t)
    (s : useGamePage.State) :
  let r := useGamePage.joinOnMount user gameID joinGame s in
  (∀ event id, useGamePage.SocketEmit event id ∈ r.2 →
     event = "joinGame"%string ∧ gameID = Some id ∧ id ≠ EmptyString
     ∧ ∃ game, joinGame = Some game
               ∧ useGamePage.gameState r.1 = Some game
               ∧ useGamePage.joinedGameID r.1 = Some id
               ∧ useGamePage.error r.1 = None)
  ∧ ((∀ event id, useGamePage.SocketEmit event id ∉ r.2) →
     useGamePage.gameState r.1 = useGamePage.gameState s
     ∧ useGamePage.joinedGameID r.1 = useGamePage.joinedGameID s).
Proof.
  intros r. subst r. unfold useGamePage.joinOnMount.
  destruct (useGamePage.truthy_id gameID) as [id|] eqn:Hid.
  2: { split; [intros ?? H; in_effects H|done]. }
  apply truthy_id_Some in Hid as [-> Hne].
  destruct joinGame as [game|]; simpl.
  - split.
    + intros event id' H.
      assert (event = "joinGame"%string ∧ id' = id) as [-> ->] by in_effects H.
      repeat split; try done. by exists game.
    + intros Hno. destruct (Hno "joinGame"%string id). effect_listed.
  - split; [intros ?? H; in_effects H|done].
Qed.

Lemma join_emits_only_after_success_witness :
  "joinGame"%string = "joinGame"%string ∧ Some "g1"%string = Some "g1"%string
  ∧ "g1"%string ≠ EmptyString
  ∧ ∃ game, Some (Scenario.instance Scenario.started) = Some game
            ∧ useGamePage.gameState
                (useGamePage.joinOnMount Scenario.p1 (Some "g1"%string)
                   (Some (Scenario.instance Scenario.started))
                   useGamePage.initialState).1 = Some game
            ∧ useGamePage.joinedGameID
                (useGamePage.joinOnMount Scenario.p1 (Some "g1"%string)
                   (Some (Scenario.instance Scenario.started))
                   useGamePage.initialState).1 = Some "g1"%string
            ∧ useGamePage.error
                (useGamePage.joinOnMount Scenario.p1 (Some "g1"%string)
                   (Some (Scenario.instance Scenario.started))
                   useGamePage.initialState).1 = None.
Proof.
  apply (proj1 (join_emits_only_after_success Scenario.p1 (Some "g1"%string)
                  (Some (Scenario.instance Scenario.started)) useGamePage.initialState)
           "joinGame"%string "g1"%string).
  apply list_elem_of_In. vm_compute. right. left. reflexivity.
Defined.

(** ** The chat service and the database *)

Section ServiceRuns.


End ServiceRuns.



(** X14: a message is saved only for a sender the database knows.  When
    [createMessage] saves a message, the lookup of [msgFrom] has returned
    a user, it is the first request, and the message saved is the one
    received with its date kept, or set to the current date when it had
    none.  When the lookup returns nothing the result is the error
    [User not found] and nothing is saved. *)
Theorem createMessage_saves_only_for_known_sender (db : Db) (messageData : MessageData.t) :
  let r := ChatServicePopulateOps.createMessage db messageData in
  (∀ data, MessageSave data ∈ r.1 →
     (∃ user, user_findOne db (MessageData.msgFrom messageData) = Val (Some user))
     ∧ r.1 = [UserFindOne (MessageData.msgFrom messageData); MessageSave data]
     ∧ MessageData.msg data = MessageData.msg messageData
     ∧ MessageData.msgFrom data = MessageData.msgFrom messageData
     ∧ MessageData.type data = MessageData.type messageData
     ∧ MessageData.msgDateTime data
       = Some (match MessageData.msgDateTime messageData with
               | Some date => date
               | None => now db
               end))
  ∧ (user_findOne db (MessageData.msgFrom messageData) = Val None →
     r = ([UserFindOne (MessageData.msgFrom messageData)],
          Val (ErrorResponse "User not found"))).
Proof.
  intros r. subst r. unfold ChatServicePopulateOps.createMessage.
  unfold mbind, Run_bind, Run.bind, Run.catch, Run.call, mret, Run_ret, Run.ret.
  destruct (user_findOne db (MessageData.msgFrom messageData)) as [[user|]|e] eqn:Huser;
    simpl.
  - destruct (message_save db 0 _) as [doc|e]; simpl.
    + split; [|done]. intros data H.
      assert (data = ChatServicePopulateOps.withDate db messageData) as -> by in_effects H.
      split; [by exists user|].
      repeat split; try done; simpl; by destruct (MessageData.msgDateTime messageData).
    + split; [|done]. intros data H.
      assert (data = ChatServicePopulateOps.withDate db messageData) as -> by in_effects H.
      split; [by exists user|].
      repeat split; try done; simpl; by destruct (MessageData.msgDateTime messageData).
  - split; [intros data H; in_effects H|done].
  - split; [intros data H; in_effects H|done].
Qed.

Lemma createMessage_saves_only_for_known_sender_witness :
  (∃ user, user_findOne DbScenario.db "p1" = Val (Some user))
  ∧ (ChatServicePopulateOps.createMessage DbScenario.db DbScenario.hello).1
    = [UserFindOne "p1"; MessageSave (ChatServicePopulateOps.withDate DbScenario.db DbScenario.hello)]
  ∧ MessageData.msg (ChatServicePopulateOps.withDate DbScenario.db DbScenario.hello)
    = "hello"%string
  ∧ MessageData.msgFrom (ChatServicePopulateOps.withDate DbScenario.db DbScenario.hello)
    = "p1"%string
  ∧ MessageData.type (ChatServicePopulateOps.withDate DbScenario.db DbScenario.hello)
    = "direct"%string
  ∧ MessageData.msgDateTime (ChatServicePopulateOps.withDate DbScenario.db DbScenario.hello)
    = Some 100.
Proof.
  apply (proj1 (createMessage_saves_only_for_known_sender DbScenario.db DbScenario.hello)
           (ChatServicePopulateOps.withDate DbScenario.db DbScenario.hello)).
  apply list_elem_of_In. vm_compute. right. left. reflexivity.
Defined.

(** X15: a participant is added only for a user the database knows, and
    the two versions of the service store different things.  In both,
    the chat is updated only after the lookup of [userId] returned a user;
    the version that populates pushes the [_id] of that user, the other
    pushes the [userId] it was given. *)
Theorem addParticipantToChat_pushes_found_user (db : Db) (chatId userId pushed : string) :
  (ChatPushParticipant chatId pushed
     ∈ (ChatServicePopulateOps.addParticipantToChat db chatId userId).1 →
   ∃ user, user_findOne db userId = Val (Some user) ∧ pushed = UserDoc._id user)
  ∧ (ChatPushParticipant chatId pushed
       ∈ (ChatServiceOps.addParticipantToChat db chatId userId).1 →
     (∃ user, user_findOne db userId = Val (Some user)) ∧ pushed = userId).
Proof.
  unfold ChatServicePopulateOps.addParticipantToChat, ChatServiceOps.addParticipantToChat.
  unfold mbind, Run_bind, Run.bind, Run.catch, Run.call, mret, Run_ret, Run.ret.
  destruct (user_findOne db userId) as [[user|]|e] eqn:Huser; simpl.
  - split.
    + destruct (chat_pushParticipant db chatId (UserDoc._id user)) as [[chat|]|e]; simpl;
        intros H; exists user; (split; [done|]); in_effects H.
    + destruct (chat_pushParticipant db chatId userId) as [[chat|]|e]; simpl;
        intros H; (split; [by exists user|]); in_effects H.
  - split; intros H; in_effects H.
  - split; intros H; in_effects H.
Qed.

Lemma addParticipantToChat_pushes_found_user_witness :
  (∃ user, user_findOne DbScenario.db "p1" = Val (Some user)
           ∧ "u1"%string = UserDoc._id user)
  ∧ ((∃ user, user_findOne DbScenario.db "p1" = Val (Some user))
     ∧ "p1"%string = "p1"%string).
Proof.
  split.
  - apply (proj1 (addParticipantToChat_pushes_found_user DbScenario.db "c1" "p1" "u1")).
    apply list_elem_of_In. vm_compute. right. left. reflexivity.
  - apply (proj2 (addParticipantToChat_pushes_found_user DbScenario.db "c1" "p1" "p1")).
    apply list_elem_of_In. vm_compute. right. left. reflexivity.
Defined.



(** ** The routes of the chat controller *)

Ltac run_route :=
  unfold chatController.respond, chatController.internalServerError,
    chatController.toString, Run.catch, Run.call,
    mbind, Run_bind, Run.bind, mret, Run_ret, Run.ret in *;
  repeat (simpl in *; case_match); simplify_eq/=.

Section Routes.
Import chatController RouteTrace.

Lemma populateAll_run sv chats :
  match populateAll sv chats with
  | (effects, Val (Some populatedChats)) =>
      responses effects = [] ∧ updates effects = []
      ∧ length populatedChats = length chats
      ∧ Some <$> populated effects = ChatDoc._id <$> chats
      ∧ ∀ i chat, populatedChats !! i = Some chat →
          ∃ doc id, chats !! i = Some doc ∧ ChatDoc._id doc = Some id
                    ∧ populateDocument sv id "chat" = Val (Ok chat)
  | (effects, Val None) =>
      responses effects = [(500, Text "Error retrieving chat: Failed populating chats")]
      ∧ last effects
        = Some (Respond 500 (Text "Error retrieving chat: Failed populating chats"))
      ∧ updates effects = []
      ∧ ∃ n, Some <$> populated effects = ChatDoc._id <$> take n chats
  | (effects, Thrown _) =>
      responses effects = [] ∧ updates effects = []
      ∧ ∃ n, Some <$> populated effects = ChatDoc._id <$> take n chats
  end.
Proof.
  induction chats as [|doc rest IH]; simpl.
  - repeat split; done.
  - destruct (ChatDoc._id doc) as [id|] eqn:Hid; simpl;
      [|repeat split; try done; by exists 0%nat].
    unfold mbind, Run_bind, Run.bind, Run.call, mret, Run_ret, Run.ret, respond.
    destruct (populateDocument sv id "chat") as [[chat|e]|e] eqn:Hpop; simpl.
    + destruct (populateAll sv rest) as [effects [[populatedChats|]|e]]; simpl in *;
        rewrite ?app_nil_r.
      * destruct IH as (Hresp & Hupd & Hlen & Hpopd & Hall).
        split; [done|]. split; [done|]. split; [by rewrite Hlen|].
        split; [unfold populated in *; simpl; f_equal; exact Hpopd|].
        intros [|i] c Hi; simpl in *.
        -- injection Hi as <-. by exists doc, id.
        -- by apply Hall.
      * destruct IH as (Hresp & Hlast & Hupd & n & Hpopd).
        split; [done|]. split; [by rewrite last_cons, Hlast|]. split; [done|].
        exists (S n). unfold populated in *. simpl. rewrite Hid. f_equal. exact Hpopd.
      * destruct IH as (Hresp & Hupd & n & Hpopd).
        split; [done|]. split; [done|].
        exists (S n). unfold populated in *. simpl. rewrite Hid. f_equal. exact Hpopd.
    + split; [done|]. split; [done|]. split; [done|].
      exists 1%nat. simpl. by rewrite Hid, ?take_0.
    + split; [done|]. split; [done|].
      exists 1%nat. simpl. by rewrite Hid, ?take_0.
Qed.
End Routes.

(** X17: every route answers exactly once.  Whatever the services and
    [populateDocument] return or throw, each of the five routes sends one
    response, as its last effect, and its status is 200, 400 or 500, or
    404 for [getChatRoute] alone. *)
Theorem route_responds_exactly_once (sv : chatController.Services)
    (req : chatController.Request) :
  let once (effects : list chatController.Effect) (statuses : list Z) :=
    ∃ status body,
      RouteTrace.responses effects = [(status, body)]
      ∧ last effects = Some (chatController.Respond status body)
      ∧ status ∈ statuses in
  once (chatController.createChatRoute sv req) [200; 400; 500]
  ∧ once (chatController.addMessageToChatRoute sv req) [200; 400; 500]
  ∧ once (chatController.getChatRoute sv req) [200; 404; 500]
  ∧ once (chatController.addParticipantToChatRoute sv req) [200; 400; 500]
  ∧ once (chatController.getChatsByUserRoute sv req) [200; 500].
Proof.
  intros once. subst once. simpl.
  split; [|split; [|split; [|split]]].
  - unfold chatController.createChatRoute.
    destruct (chatController.isCreateChatRequestValid req); simpl; run_route;
      do 2 eexists; (split; [reflexivity|]); (split; [reflexivity|]); effect_listed.
  - unfold chatController.addMessageToChatRoute.
    destruct (chatController.isAddMessageRequestValid req); simpl;
      [set (md := chatController.mkMessageFields _ _ _ _); clearbody md|];
      run_route;
      do 2 eexists; (split; [reflexivity|]); (split; [reflexivity|]); effect_listed.
  - unfold chatController.getChatRoute. run_route;
      do 2 eexists; (split; [reflexivity|]); (split; [reflexivity|]); effect_listed.
  - unfold chatController.addParticipantToChatRoute.
    destruct (chatController.isAddParticipantRequestValid req); simpl; run_route;
      do 2 eexists; (split; [reflexivity|]); (split; [reflexivity|]); effect_listed.
  - unfold chatController.getChatsByUserRoute.
    unfold mbind, Run_bind, Run.bind, Run.catch, Run.call, mret, Run_ret, Run.ret.
    destruct (chatController.getChatsByParticipants sv _) as [chats|e]; simpl.
    + pose proof (populateAll_run sv chats) as Hrun.
      destruct (chatController.populateAll sv chats) as [effects [[populatedChats|]|e]];
        simpl.
      * destruct Hrun as (Hresp & _).
        do 2 eexists. unfold RouteTrace.responses in *. simpl.
        rewrite omap_app, Hresp. simpl.
        split; [reflexivity|]. rewrite app_comm_cons, last_snoc.
        split; [reflexivity|]. effect_listed.
      * destruct Hrun as (Hresp & Hlast & _).
        do 2 eexists. unfold RouteTrace.responses in *. simpl.
        rewrite app_nil_r, Hresp.
        split; [reflexivity|]. split; [|effect_listed].
        destruct effects; [done|]. exact Hlast.
      * destruct Hrun as (Hresp & _).
        do 2 eexists. unfold RouteTrace.responses in *. simpl.
        rewrite omap_app, Hresp. simpl.
        split; [reflexivity|]. rewrite app_comm_cons, last_snoc.
        split; [reflexivity|]. effect_listed.
    + do 2 eexists. split; [reflexivity|]. split; [reflexivity|]. effect_listed.
Qed.

Section Validation.
Import chatController RouteTrace.

Lemma trimmedNonEmpty_nonBlank v : trimmedNonEmpty v = true → nonBlank v.
Proof.
  destruct v as [[]|]; simpl; try done.
  intros H. eexists. split; [done|]. by destruct (JsString.trim s).
Qed.

Lemma isCreateChatRequestValid_true req :
  isCreateChatRequestValid req = true →
  ∃ fields participants,
    body req = Some (JsonObject fields)
    ∧ fields !! "participants"%string = Some (JsonArray participants)
    ∧ participants ≠ []
    ∧ Forall (λ participant, nonBlank (Some participant)) participants.
Proof.
  unfold isCreateChatRequestValid.
  destruct (body req) as [b|]; [|done]. simpl.
  destruct (field "participants" b) as [[| | | |participants|]|] eqn:Hf;
    rewrite ?andb_false_r; try done.
  destruct b; try done. simpl in Hf.
  intros H. apply andb_prop in H as [_ H]. apply andb_prop in H as [Hlen Hall].
  exists fields, participants. split; [done|]. split; [done|].
  split; [by destruct participants|].
  apply Forall_forall. intros p Hp.
  rewrite forallb_forall in Hall.
  specialize (Hall p (proj1 (list_elem_of_In _ _) Hp)).
  apply andb_prop in Hall as [_ Hall]. by apply trimmedNonEmpty_nonBlank.
Qed.

Lemma isAddMessageRequestValid_true req :
  isAddMessageRequestValid req = true →
  nonBlank (body req ≫= field "msg") ∧ nonBlank (body req ≫= field "msgFrom").
Proof.
  unfold isAddMessageRequestValid. intros H.
  repeat (apply andb_prop in H as [H ?]).
  split; by apply trimmedNonEmpty_nonBlank.
Qed.

Lemma isAddParticipantRequestValid_true req :
  isAddParticipantRequestValid req = true →
  nonBlank (body req ≫= field "userId").
Proof.
  unfold isAddParticipantRequestValid.
  repeat case_match; try done. apply trimmedNonEmpty_nonBlank.
Qed.
End Validation.

(** X18: the services see validated requests only.  [saveChat] is called
    only with a body whose [participants] is a non-empty array of strings
    none of which is blank; [createMessage] only with a [msg] and a
    [msgFrom] that are strings and not blank; [addParticipantToChat] only
    with a [userId] that is a string and not blank.  A request that fails
    the validation is answered with status 400 and [Invalid request body],
    and nothing else happens. *)
Theorem services_receive_validated_requests
    (sv : chatController.Services) (req : chatController.Request) :
  (∀ b, chatController.SaveChat b ∈ chatController.createChatRoute sv req →
     b = chatController.body req
     ∧ ∃ fields participants,
         b = Some (JsonObject fields)
         ∧ fields !! "participants"%string = Some (JsonArray participants)
         ∧ participants ≠ []
         ∧ Forall (λ participant, RouteTrace.nonBlank (Some participant)) participants)
  ∧ (∀ m, chatController.CreateMessage m ∈ chatController.addMessageToChatRoute sv req →
       RouteTrace.nonBlank (chatController.msg m)
       ∧ RouteTrace.nonBlank (chatController.msgFrom m)
       ∧ chatController.msg m = chatController.body req ≫= chatController.field "msg"
       ∧ chatController.msgFrom m
         = chatController.body req ≫= chatController.field "msgFrom")
  ∧ (∀ chatId userId,
       chatController.AddParticipantToChat chatId userId
         ∈ chatController.addParticipantToChatRoute sv req →
       RouteTrace.nonBlank userId
       ∧ userId = chatController.body req ≫= chatController.field "userId")
  ∧ (chatController.isCreateChatRequestValid req = false →
     chatController.createChatRoute sv req
     = [chatController.Respond 400 (chatController.ErrorJson "Invalid request body")])
  ∧ (chatController.isAddMessageRequestValid req = false →
     chatController.addMessageToChatRoute sv req
     = [chatController.Respond 400 (chatController.ErrorJson "Invalid request body")])
  ∧ (chatController.isAddParticipantRequestValid req = false →
     chatController.addParticipantToChatRoute sv req
     = [chatController.Respond 400 (chatController.ErrorJson "Invalid request body")]).
Proof.
  split; [|split; [|split; [|split; [|split]]]].
  - intros b. unfold chatController.createChatRoute.
    destruct (chatController.isCreateChatRequestValid req) eqn:Hvalid; simpl;
      [|intros H; in_effects H].
    apply isCreateChatRequestValid_true in Hvalid as (fields & participants & Hb & Hrest).
    intros H. assert (b = chatController.body req) as ->; [|by eauto].
    revert H. run_route; intros H; in_effects H.
  - intros m. unfold chatController.addMessageToChatRoute.
    destruct (chatController.isAddMessageRequestValid req) eqn:Hvalid; simpl;
      [|intros H; in_effects H].
    apply isAddMessageRequestValid_true in Hvalid as [Hmsg Hfrom].
    set (messageData := chatController.mkMessageFields _ _ _ _).
    intros H. assert (m = messageData) as ->; [|done].
    revert H. clear Hmsg Hfrom. generalize messageData. intros md.
    run_route; intros H; in_effects H.
  - intros chatId userId. unfold chatController.addParticipantToChatRoute.
    destruct (chatController.isAddParticipantRequestValid req) eqn:Hvalid; simpl;
      [|intros H; in_effects H].
    apply isAddParticipantRequestValid_true in Hvalid.
    intros H.
    assert (userId = chatController.body req ≫= chatController.field "userId") as ->;
      [|done].
    revert H. clear Hvalid. run_route; intros H; in_effects H; by simplify_eq.
  - intros Hvalid. unfold chatController.createChatRoute. by rewrite Hvalid.
  - intros Hvalid. unfold chatController.addMessageToChatRoute. by rewrite Hvalid.
  - intros Hvalid. unfold chatController.addParticipantToChatRoute. by rewrite Hvalid.
Qed.

Lemma services_receive_validated_requests_witness :
  (Some ControllerScenario.createBody
   = chatController.body ControllerScenario.createRequest
   ∧ ∃ fields participants,
       Some ControllerScenario.createBody = Some (JsonObject fields)
       ∧ fields !! "participants"%string = Some (JsonArray participants)
       ∧ participants ≠ []
       ∧ Forall (λ participant, RouteTrace.nonBlank (Some participant)) participants)
  ∧ chatController.createChatRoute ControllerScenario.services
      {| chatController.body := Some (JsonObject ∅); chatController.params := ∅ |}
    = [chatController.Respond 400 (chatController.ErrorJson "Invalid request body")].
Proof.
  destruct (services_receive_validated_requests ControllerScenario.services
              ControllerScenario.createRequest) as (Hsave & _).
  destruct (services_receive_validated_requests ControllerScenario.services
              {| chatController.body := Some (JsonObject ∅); chatController.params := ∅ |})
    as (_ & _ & _ & Hinvalid & _).
  split.
  - apply Hsave. apply list_elem_of_In. vm_compute. left. reflexivity.
  - apply Hinvalid. reflexivity.
Defined.

(** X19: a chat update is emitted exactly with a successful response, and
    the client accepts it.  [createChatRoute] emits, to everybody, one
    ['created'] update when it answers 200 and none otherwise;
    [addMessageToChatRoute] emits, to the room [req.params.chatId], one
    ['newMessage'] update when it answers 200 and none otherwise; in both
    the chat of the update is the body of the response.  The other routes
    emit nothing.  [handleChatUpdate] of the client never throws on an
    update that a route emits. *)
Theorem chat_update_emitted_with_success
    (sv : chatController.Services) (req : chatController.Request) :
  let created := chatController.createChatRoute sv req in
  let added := chatController.addMessageToChatRoute sv req in
  ((∃ chat,
      RouteTrace.updates created = [ChatUpdatePayload.mk chat "created"]
      ∧ chatController.Emit (ChatUpdatePayload.mk chat "created") ∈ created
      ∧ last created = Some (chatController.Respond 200 (chatController.ChatJson chat)))
   ∨ (RouteTrace.updates created = []
      ∧ ∀ body, chatController.Respond 200 body ∉ created))
  ∧ ((∃ chat,
        RouteTrace.updates added = [ChatUpdatePayload.mk chat "newMessage"]
        ∧ chatController.EmitTo (chatController.params req !! "chatId"%string)
            (ChatUpdatePayload.mk chat "newMessage") ∈ added
        ∧ last added = Some (chatController.Respond 200 (chatController.ChatJson chat)))
     ∨ (RouteTrace.updates added = []
        ∧ ∀ body, chatController.Respond 200 body ∉ added))
  ∧ RouteTrace.updates (chatController.getChatRoute sv req) = []
  ∧ RouteTrace.updates (chatController.addParticipantToChatRoute sv req) = []
  ∧ RouteTrace.updates (chatController.getChatsByUserRoute sv req) = []
  ∧ ∀ payload s,
      payload ∈ RouteTrace.updates created ++ RouteTrace.updates added →
      is_Some (useDirectMessage.handleChatUpdate payload s).
Proof.
  intros created added.
  assert (Hcreated :
    (∃ chat,
      RouteTrace.updates created = [ChatUpdatePayload.mk chat "created"]
      ∧ chatController.Emit (ChatUpdatePayload.mk chat "created") ∈ created
      ∧ last created = Some (chatController.Respond 200 (chatController.ChatJson chat)))
    ∨ (RouteTrace.updates created = []
       ∧ ∀ body, chatController.Respond 200 body ∉ created)).
  { subst created added. unfold chatController.createChatRoute.
    destruct (chatController.isCreateChatRequestValid req); simpl; run_route;
      first [ right; split; [reflexivity|]; intros b Hb; in_effects Hb; done
            | left; eexists; split; [reflexivity|]; split; [effect_listed|reflexivity] ]. }
  assert (Hadded :
    (∃ chat,
      RouteTrace.updates added = [ChatUpdatePayload.mk chat "newMessage"]
      ∧ chatController.EmitTo (chatController.params req !! "chatId"%string)
          (ChatUpdatePayload.mk chat "newMessage") ∈ added
      ∧ last added = Some (chatController.Respond 200 (chatController.ChatJson chat)))
    ∨ (RouteTrace.updates added = []
       ∧ ∀ body, chatController.Respond 200 body ∉ added)).
  { subst created added. unfold chatController.addMessageToChatRoute.
    destruct (chatController.isAddMessageRequestValid req); simpl;
      [set (md := chatController.mkMessageFields _ _ _ _); clearbody md|];
      run_route;
      first [ right; split; [reflexivity|]; intros b Hb; in_effects Hb; done
            | left; eexists; split; [reflexivity|]; split; [effect_listed|reflexivity] ]. }
  split; [done|]. split; [done|].
  split; [unfold chatController.getChatRoute; by run_route|].
  split; [unfold chatController.addParticipantToChatRoute;
          destruct (chatController.isAddParticipantRequestValid req); simpl; by run_route|].
  split.
  { unfold chatController.getChatsByUserRoute.
    unfold mbind, Run_bind, Run.bind, Run.catch, Run.call, mret, Run_ret, Run.ret.
    destruct (chatController.getChatsByParticipants sv _) as [chats|e]; simpl; [|done].
    pose proof (populateAll_run sv chats) as Hrun.
    destruct (chatController.populateAll sv chats) as [effects [[populatedChats|]|e]];
      simpl; unfold RouteTrace.updates in *; simpl; rewrite ?omap_app, ?app_nil_r;
      by destruct Hrun as (_ & -> & _) || by destruct Hrun as (_ & _ & -> & _). }
  intros payload s Hin.
  assert (ChatUpdatePayload.type payload = "created"%string
          ∨ ChatUpdatePayload.type payload = "newMessage"%string) as [Ht|Ht].
  { apply elem_of_app in Hin as [Hin|Hin].
    - destruct Hcreated as [(chat & Hupd & _)|[Hupd _]]; rewrite Hupd in Hin;
        in_effects Hin.
    - destruct Hadded as [(chat & Hupd & _)|[Hupd _]]; rewrite Hupd in Hin;
        in_effects Hin. }
  - unfold useDirectMessage.handleChatUpdate. rewrite Ht. by eexists.
  - unfold useDirectMessage.handleChatUpdate. rewrite Ht. by eexists.
Qed.

Section UserChats.
Import chatController RouteTrace.

Lemma responded_in_responses effects status body :
  Respond status body ∈ effects ↔ (status, body) ∈ responses effects.
Proof.
  unfold responses. rewrite list_elem_of_omap. split.
  - intros H. by exists (Respond status body).
  - intros (e & He & Hsome). destruct e; try done. by injection Hsome as -> ->.
Qed.
End UserChats.

(** X20: [getChatsByUserRoute] populates the chats in order and answers
    with all of them or with none.  The service is asked first, for the
    [username] of the route alone.  The chats it returns are populated
    one by one, in order, up to the first failure; a response with status
    200 carries exactly one populated chat for each chat returned, in the
    same order, each being what [populateDocument] gave for its [_id]. *)
Theorem getChatsByUser_populates_in_order
    (sv : chatController.Services) (req : chatController.Request)
    (chats : list ChatDoc.t) :
  chatController.getChatsByParticipants sv
    [chatController.params req !! "username"%string] = Val chats →
  let effects := chatController.getChatsByUserRoute sv req in
  head effects
  = Some (chatController.GetChatsByParticipants
            [chatController.params req !! "username"%string])
  ∧ (∃ n, Some <$> RouteTrace.populated effects = ChatDoc._id <$> take n chats)
  ∧ ∀ body, chatController.Respond 200 body ∈ effects →
      ∃ populatedChats,
        body = chatController.ChatsJson populatedChats
        ∧ length populatedChats = length chats
        ∧ Some <$> RouteTrace.populated effects = ChatDoc._id <$> chats
        ∧ ∀ i chat, populatedChats !! i = Some chat →
            ∃ doc id, chats !! i = Some doc ∧ ChatDoc._id doc = Some id
                      ∧ chatController.populateDocument sv id "chat" = Val (Ok chat).
Proof.
  intros Hchats effects. subst effects. unfold chatController.getChatsByUserRoute.
  unfold mbind, Run_bind, Run.bind, Run.catch, Run.call, mret, Run_ret, Run.ret.
  rewrite Hchats. simpl.
  pose proof (populateAll_run sv chats) as Hrun.
  destruct (chatController.populateAll sv chats) as [effects [[populatedChats|]|e]]; simpl.
  - destruct Hrun as (Hresp & _ & Hlen & Hpop & Hall).
    assert (Hpopulated : RouteTrace.populated (effects ++ [chatController.Respond 200
              (chatController.ChatsJson populatedChats)]) = RouteTrace.populated effects).
    { unfold RouteTrace.populated. by rewrite omap_app, app_nil_r. }
    split; [done|]. unfold RouteTrace.populated at 1. simpl.
    fold (RouteTrace.populated (effects ++ [chatController.Respond 200
            (chatController.ChatsJson populatedChats)])).
    rewrite Hpopulated.
    split; [exists (length chats); by rewrite firstn_all|].
    intros body Hin. apply elem_of_cons in Hin as [Hin|Hin]; [done|].
    apply elem_of_app in Hin as [Hin|Hin].
    + apply responded_in_responses in Hin. rewrite Hresp in Hin. by apply elem_of_nil in Hin.
    + apply list_elem_of_singleton in Hin. injection Hin as ->.
      by exists populatedChats.
  - destruct Hrun as (Hresp & _ & _ & n & Hpop).
    rewrite app_nil_r. split; [done|]. split; [by exists n|].
    intros body Hin. apply elem_of_cons in Hin as [Hin|Hin]; [done|].
    apply responded_in_responses in Hin. rewrite Hresp in Hin.
    apply list_elem_of_singleton in Hin. done.
  - destruct Hrun as (Hresp & _ & n & Hpop).
    split; [done|]. split.
    + exists n. unfold RouteTrace.populated in *. simpl. by rewrite omap_app, app_nil_r.
    + intros body Hin. apply elem_of_cons in Hin as [Hin|Hin]; [done|].
      apply elem_of_app in Hin as [Hin|Hin].
      * apply responded_in_responses in Hin. rewrite Hresp in Hin.
        by apply elem_of_nil in Hin.
      * apply list_elem_of_singleton in Hin. done.
Qed.

Lemma getChatsByUser_populates_in_order_witness :
  head (chatController.getChatsByUserRoute ControllerScenario.services
          ControllerScenario.userRequest)
  = Some (chatController.GetChatsByParticipants [Some "p1"%string])
  ∧ (∃ n, Some <$> RouteTrace.populated
                     (chatController.getChatsByUserRoute ControllerScenario.services
                        ControllerScenario.userRequest)
          = ChatDoc._id <$> take n [DbScenario.stored])
  ∧ ∀ body,
      chatController.Respond 200 body
        ∈ chatController.getChatsByUserRoute ControllerScenario.services
            ControllerScenario.userRequest →
      ∃ populatedChats,
        body = chatController.ChatsJson populatedChats
        ∧ length populatedChats = length [DbScenario.stored]
        ∧ Some <$> RouteTrace.populated
                     (chatController.getChatsByUserRoute ControllerScenario.services
                        ControllerScenario.userRequest)
          = ChatDoc._id <$> [DbScenario.stored]
        ∧ ∀ i chat, populatedChats !! i = Some chat →
            ∃ doc id, [DbScenario.stored] !! i = Some doc ∧ ChatDoc._id doc = Some id
                      ∧ chatController.populateDocument ControllerScenario.services id "chat"
                        = Val (Ok chat).
Proof.
  apply (getChatsByUser_populates_in_order ControllerScenario.services
           ControllerScenario.userRequest [DbScenario.stored]).
  reflexivity.
Defined.

(** ** Rooms *)

Section Rooms.
Import chatController.

Lemma roomOf_Some chatID room :
  roomOf chatID = Some room →
  chatID = Some (JsonString room) ∧ JsString.trim room ≠ [].
Proof.
  unfold roomOf. destruct chatID as [[]|]; try done.
  case_match eqn:Hc; [|done]. intros [= <-]. split; [done|].
  apply andb_prop in Hc as [_ Hc]. simpl in Hc. by destruct (JsString.trim s).
Qed.

Lemma roomsAfter_snoc events e :
  roomsAfter (events ++ [e]) = onEvent (roomsAfter events) e.
Proof. unfold roomsAfter. by rewrite fold_left_app. Qed.
End Rooms.

(** X21: a connection is only ever in rooms named by non-blank strings
    that it asked to join.  After any sequence of [joinChat] and
    [leaveChat] events, every room of the connection is a string that is
    not blank and was the argument of a [joinChat]; and right after a
    [leaveChat] of a room the connection is not in it. *)
Theorem rooms_are_joined_non_blank_ids
    (events : list chatController.SocketEvent) (room : list N) :
  (room ∈ chatController.roomsAfter events →
   JsString.trim room ≠ []
   ∧ chatController.joinChat (Some (JsonString room)) ∈ events)
  ∧ room ∉ chatController.roomsAfter
             (events ++ [chatController.leaveChat (Some (JsonString room))]).
Proof.
  split.
  - induction events as [|e events IH] using rev_ind.
    + intros H. unfold chatController.roomsAfter in H. simpl in H.
      by apply elem_of_empty in H.
    + rewrite roomsAfter_snoc. intros H.
      destruct e as [chatID|chatID]; simpl in H.
      * unfold chatController.onJoinChat in H.
        destruct (chatController.roomOf chatID) as [r|] eqn:Hr.
        -- apply elem_of_union in H as [H|H].
           ++ apply elem_of_singleton in H. subst r.
              apply roomOf_Some in Hr as [-> Hne]. split; [done|].
              apply elem_of_app. right. by apply list_elem_of_singleton.
           ++ destruct (IH H) as [Hne Hin]. split; [done|].
              apply elem_of_app. by left.
        -- destruct (IH H) as [Hne Hin]. split; [done|]. apply elem_of_app. by left.
      * unfold chatController.onLeaveChat in H.
        assert (room ∈ chatController.roomsAfter events) as H'.
        { destruct (chatController.roomOf chatID);
            [by apply elem_of_difference in H as [H _]|done]. }
        destruct (IH H') as [Hne Hin]. split; [done|]. apply elem_of_app. by left.
  - rewrite roomsAfter_snoc. simpl. unfold chatController.onLeaveChat.
    destruct (chatController.roomOf (Some (JsonString room))) as [r|] eqn:Hr.
    + apply roomOf_Some in Hr as [[= <-] _]. intros H.
      apply elem_of_difference in H as [_ H]. apply H. by apply elem_of_singleton.
    + intros H.
      assert (Hjoined : JsString.trim room ≠ []).
      { clear Hr. revert H. induction events as [|e events IH] using rev_ind.
        - unfold chatController.roomsAfter. simpl. intros H. by apply elem_of_empty in H.
        - rewrite roomsAfter_snoc. destruct e as [chatID|chatID]; simpl.
          + unfold chatController.onJoinChat.
            destruct (chatController.roomOf chatID) as [r|] eqn:Hr; [|done].
            intros H. apply elem_of_union in H as [H|H]; [|by apply IH].
            apply elem_of_singleton in H. subst r.
            by apply roomOf_Some in Hr as [_ Hne].
          + unfold chatController.onLeaveChat.
            destruct (chatController.roomOf chatID); [|done].
            intros H. apply elem_of_difference in H as [H _]. by apply IH. }
      unfold chatController.roomOf in Hr. simpl in Hr.
      destruct (JsString.truthy room) eqn:Htr.
      * simpl in Hr. by destruct (JsString.trim room).
      * destruct room; [|done]. by apply Hjoined.
Qed.

Lemma rooms_are_joined_non_blank_ids_witness :
  JsString.trim (useNimGamePage.code_units "c1") ≠ []
  ∧ chatController.joinChat (Some (ControllerScenario.str "c1"))
      ∈ [chatController.joinChat (Some (ControllerScenario.str " "));
         chatController.joinChat (Some (ControllerScenario.str "c1"))].
Proof.
  apply (proj1 (rooms_are_joined_non_blank_ids
                  [chatController.joinChat (Some (ControllerScenario.str " "));
                   chatController.joinChat (Some (ControllerScenario.str "c1"))]
                  (useNimGamePage.code_units "c1"))).
  apply (bool_decide_unpack _). vm_compute. exact I.
Defined.

(** ** The name of the route parameter *)

(** X22: the routes never hand the chat identifier of the URL to the
    services.  Every route with a chat identifier is registered with the
    parameter [chatID], while the handlers read [req.params.chatId]: for a
    request whose parameters are those of the route that matched it,
    [addMessageToChat], [getChat] and [addParticipantToChat] are called
    with an undefined chat identifier, and the ['newMessage'] update goes
    to an undefined room. *)
Theorem routes_read_undefined_chatId
    (sv : chatController.Services) (req : chatController.Request)
    (method : Router.Method) (pattern : list Router.Segment) (handler : Router.Handler)
    (e : chatController.Effect) (chatId : option string) :
  (method, pattern, handler) ∈ Router.routes →
  dom (chatController.params req) = list_to_set (Router.paramNames pattern) →
  e ∈ Router.run handler sv req →
  Router.chatIdOf e = Some chatId →
  chatId = None.
Proof.
  intros Hroute Hdom He Hid.
  assert (Hundefined : chatController.params req !! "chatId"%string = None).
  { apply not_elem_of_dom. rewrite Hdom.
    rewrite elem_of_list_to_set. intros Hin.
    in_effects Hroute; simplify_eq; in_effects Hin. }
  destruct handler; simpl in He.
  - unfold chatController.createChatRoute in He.
    destruct (chatController.isCreateChatRequestValid req); simpl in He;
      run_route; in_effects He; by simplify_eq/=.
  - unfold chatController.addMessageToChatRoute in He. rewrite Hundefined in He.
    destruct (chatController.isAddMessageRequestValid req); simpl in He;
      [set (md := chatController.mkMessageFields _ _ _ _) in He; clearbody md|];
      run_route; in_effects He; by simplify_eq/=.
  - unfold chatController.getChatRoute in He. rewrite Hundefined in He.
    run_route; in_effects He; by simplify_eq/=.
  - unfold chatController.addParticipantToChatRoute in He. rewrite Hundefined in He.
    destruct (chatController.isAddParticipantRequestValid req); simpl in He;
      run_route; in_effects He; by simplify_eq/=.
  - unfold chatController.getChatsByUserRoute in He.
    unfold mbind, Run_bind, Run.bind, Run.catch, Run.call, mret, Run_ret, Run.ret in He.
    assert (Hloop : ∀ chats e, e ∈ (chatController.populateAll sv chats).1 →
              Router.chatIdOf e = None).
    { clear. induction chats as [|doc rest IH]; intros e; simpl;
        [intros H; by apply elem_of_nil in H|].
      destruct (ChatDoc._id doc) as [id|]; simpl; [|intros H; by apply elem_of_nil in H].
      unfold mbind, Run_bind, Run.bind, Run.call, mret, Run_ret, Run.ret,
        chatController.respond.
      destruct (chatController.populateDocument sv id "chat") as [[chat|err]|err]; simpl;
        [|intros H; in_effects H..].
      destruct (chatController.populateAll sv rest) as [effects [r|err]]; simpl in *;
        rewrite ?app_nil_r; intros H;
        (apply elem_of_cons in H as [->|H]; [done|by apply IH]). }
    destruct (chatController.getChatsByParticipants sv _) as [chats|err]; simpl in He;
      [|in_effects He; by simplify_eq/=].
    specialize (Hloop chats).
    destruct (chatController.populateAll sv chats) as [effects [[l|]|err]]; simpl in *;
      rewrite ?app_nil_r in He;
      (apply elem_of_cons in He as [->|He]; [done|]);
      try (apply elem_of_app in He as [He|He]; [|in_effects He; by simplify_eq/=]);
      apply Hloop in He; congruence.
Qed.

Lemma routes_read_undefined_chatId_witness :
  (chatController.params ControllerScenario.messageRequest !! "chatId"%string : option string)
  = None.
Proof.
  apply (routes_read_undefined_chatId ControllerScenario.services
           ControllerScenario.messageRequest Router.POST
           [Router.Named "chatID"; Router.Literal "addMessage"]
           Router.addMessageToChat
           (chatController.AddMessageToChat
              (chatController.params ControllerScenario.messageRequest !! "chatId"%string)
              "m1")).
  - apply list_elem_of_In. simpl. auto.
  - vm_compute. reflexivity.
  - apply list_elem_of_In. vm_compute. right. left. reflexivity.
  - reflexivity.
Defined.

(** ** The properties above, on the scenarios *)


Lemma send_message_clears_draft_only_on_success_witness :
  DirectMessageHook.newMessage
    (DirectMessageHook.handleSendMessage Scenario.p1 42 (λ _ _, true)
       ChatScenario.writing).1
  = [].
Proof.
  destruct (send_message_clears_draft_only_on_success Scenario.p1 42 (λ _ _, true)
              ChatScenario.writing)
    as (_ & _ & _ & [(message & chatID & _ & _ & Hdraft)|[Hsame _]]).
  - exact Hdraft.
  - vm_compute in Hsame. discriminate Hsame.
Defined.

Lemma leave_always_navigates_once_witness :
  useGamePage.joinedGameID
    (useGamePage.run Scenario.p1
       [useGamePage.EffectRun (Some "g1"%string)
          (Some (Scenario.instance Scenario.started))])
  = Some "g1"%string
  ∧ "g1"%string ≠ EmptyString
  ∧ "p1"%string = User.username Scenario.p1
  ∧ ∃ g, useGamePage.gameState
           (useGamePage.run Scenario.p1
              [useGamePage.EffectRun (Some "g1"%string)
                 (Some (Scenario.instance Scenario.started))])
         = Some g
         ∧ NimGameState.status (GameInstance.state g) ≠ OVER.
Proof.
  apply (proj1 (proj2 (leave_always_navigates_once Scenario.p1 (λ _ _, false)
                         (useGamePage.run Scenario.p1
                            [useGamePage.EffectRun (Some "g1"%string)
                               (Some (Scenario.instance Scenario.started))])))
           "g1"%string "p1"%string).
  apply list_elem_of_In. vm_compute. left. reflexivity.
Defined.

Lemma chat_update_emitted_with_success_witness :
  is_Some (useDirectMessage.handleChatUpdate
             (ChatUpdatePayload.mk Scenario.chat "created") Scenario.noChats).
Proof.
  apply (proj2 (proj2 (proj2 (proj2 (proj2
           (chat_update_emitted_with_success ControllerScenario.services
              ControllerScenario.createRequest)))))
           (ChatUpdatePayload.mk Scenario.chat "created") Scenario.noChats).
  apply list_elem_of_In. vm_compute. left. reflexivity.
Defined.
